(** * MCF template engine (scripts/template-engine.py)

    A shallow embedding of [TemplateEngine] and of the command line entry
    point [main], with the properties of the engine's specification stated
    and proved (or refuted) over it.

    Layout:
    - [Str]: the Python string primitives the engine relies on
      ([str.replace], [str.strip], [str.join], [in]);
    - [Regex]: the part of [re] the validation patterns need ([re.match]);
    - [Engine]: documents, the world, the exception/state monad and the
      methods of [TemplateEngine], over an arbitrary host ([Host]);
    - [Notions]: what the properties are stated with;
    - [Toy], [Samples]: one concrete host and the documents the engine is
      run on in the examples;
    - the facts, component by component: substitution, the collector, the
      store, the step executor, the runner. *)

From stdpp Require Import base strings list.
From Stdlib Require Import Ascii Sorting.Sorted Sorting.Permutation.

Open Scope string_scope.
Open Scope list_scope.

(* ===================================================================== *)
(** ** Python string primitives *)
(* ===================================================================== *)

Module Str.

(** [old in s]: [old] occurs in [s] as a contiguous substring. *)
Definition occurs (old s : string) : Prop :=
  ∃ pre post, s = pre +:+ old +:+ post.

(** [s.replace(old, new)] for the empty [old]: Python puts [new] before every character and at
    the end. *)
Fixpoint interleave (new s : string) : string :=
  match s with
  | EmptyString => new
  | String c t => new +:+ String c (interleave new t)
  end.

(** The scan of [s.replace(old, new)] for a non-empty [old]: left to right,
    non-overlapping.  [skip] counts the characters of a matched occurrence
    of [old] that are still to be dropped; what has been emitted ([new]
    included) is never looked at again. *)
Fixpoint scan (old new : string) (skip : nat) (s : string) : string :=
  match s with
  | EmptyString => EmptyString
  | String c t =>
      match skip with
      | S k => scan old new k t
      | O =>
          if String.prefix old s
          then new +:+ scan old new (String.length old - 1) t
          else String c (scan old new 0 t)
      end
  end.

(** [s.replace(old, new)]. *)
Definition replace (s old new : string) : string :=
  match old with
  | EmptyString => interleave new s
  | String _ _ => scan old new 0 s
  end.

(** Python's ASCII white space, as [str.strip()] sees it. *)
Definition is_space (c : ascii) : bool :=
  let n := nat_of_ascii c in
  (n =? 32)%nat || ((9 <=? n)%nat && (n <=? 13)%nat)
  || ((28 <=? n)%nat && (n <=? 31)%nat).

Fixpoint lstrip (s : string) : string :=
  match s with
  | EmptyString => EmptyString
  | String c t => if is_space c then lstrip t else s
  end.

Fixpoint rstrip (s : string) : string :=
  match s with
  | EmptyString => EmptyString
  | String c t =>
      match rstrip t with
      | EmptyString => if is_space c then EmptyString else String c EmptyString
      | t' => String c t'
      end
  end.

(** [s.strip()]. *)
Definition strip (s : string) : string := rstrip (lstrip s).

(** [sep.join(l)]. *)
Fixpoint join (sep : string) (l : list string) : string :=
  match l with
  | [] => EmptyString
  | [x] => x
  | x :: rest => x +:+ sep +:+ join sep rest
  end.

(** Truthiness of a string: [bool(s)]. *)
Definition truthy (s : string) : bool :=
  match s with EmptyString => false | _ => true end.

(** [old in s], computed. *)
Fixpoint contains (old s : string) : bool :=
  String.prefix old s
  || match s with
     | EmptyString => false
     | String _ t => contains old t
     end.

End Str.

(* ===================================================================== *)
(** ** Regular expressions: what [re.match] decides *)
(* ===================================================================== *)

Module Regex.

(** A compiled pattern.  [Bol] is [^], [Eol] is [$], [Any] is [.], and
    [Cls] is a character class given by its ranges ([[a-z0-9]] is
    [Cls [(a,z); (0,9)]]).  No flags: the engine passes none. *)
Inductive regex : Type :=
  | Eps
  | Chr (c : ascii)
  | Cls (ranges : list (ascii * ascii))
  | Any
  | Cat (r1 r2 : regex)
  | Alt (r1 r2 : regex)
  | Star (r : regex)
  | Bol
  | Eol.

(** [r+]. *)
Definition Plus (r : regex) : regex := Cat r (Star r).

(** A point of the subject: how many characters are behind it, and what is
    still ahead. *)
Definition point : Type := nat * string.

Definition in_range (c : ascii) (r : ascii * ascii) : bool :=
  (nat_of_ascii r.1 <=? nat_of_ascii c)%nat
  && (nat_of_ascii c <=? nat_of_ascii r.2)%nat.

(** One step over a character satisfying [ok]. *)
Definition eat (ok : ascii → bool) (p : point) : list point :=
  match p.2 with
  | String c t => if ok c then [(S p.1, t)] else []
  | EmptyString => []
  end.

(** Iteration of [f], each round having to consume something; [fuel] is the
    number of characters ahead, which bounds the number of rounds. *)
Fixpoint star (f : point → list point) (fuel : nat) (p : point) : list point :=
  p :: match fuel with
       | O => []
       | S k =>
           flat_map (star f k)
             (filter (λ q, String.length q.2 < String.length p.2) (f p))
       end.

Definition newline : ascii := ascii_of_nat 10.

(** Every point at which a match of [r] that starts at [p] can end. *)
Fixpoint ends (r : regex) (p : point) : list point :=
  match r with
  | Eps => [p]
  | Chr c => eat (λ d, bool_decide (c = d)) p
  | Cls ranges => eat (λ d, existsb (in_range d) ranges) p
  | Any => eat (λ d, negb (bool_decide (d = newline))) p
  | Cat r1 r2 => flat_map (ends r2) (ends r1 p)
  | Alt r1 r2 => ends r1 p ++ ends r2 p
  | Star r1 => star (ends r1) (String.length p.2) p
  | Bol => if decide (p.1 = 0) then [p] else []
  | Eol =>
      if decide (p.2 = EmptyString ∨ p.2 = String newline EmptyString)
      then [p] else []
  end.

(** Truthiness of [re.match(pattern, value)]: the pattern matches at the
    start of the value, wherever that match ends. *)
Definition re_match (pattern : regex) (value : string) : bool :=
  match ends pattern (0, value) with
  | [] => false
  | _ :: _ => true
  end.

(** Truthiness of [re.fullmatch(pattern, value)]: some match from the start
    ends at the end of the value. *)
Definition re_fullmatch (pattern : regex) (value : string) : bool :=
  existsb (λ q, bool_decide (q.2 = EmptyString)) (ends pattern (0, value)).

(** [q] lies ahead of [p] in the same subject: what separates them is a
    prefix of what [p] has ahead. *)
Definition ahead (p q : point) : Prop :=
  ∃ pre, p.2 = pre +:+ q.2 ∧ q.1 = p.1 + String.length pre.

End Regex.

(* ===================================================================== *)
(** ** The engine *)
(* ===================================================================== *)

Module Engine.

Import Regex.

(** *** Template documents

    A document is what [json.load] returns for a template file: a
    dictionary.  A key that may be missing is an [option]; the engine reads
    keys with [d[k]] (a [KeyError] when missing), [d.get(k, default)] and
    [k in d], and the embedding keeps the three apart. *)

(** A validation pattern is a string, which [re.match] compiles when it is
    called: [p_source] is the string, and [p_compiled] what compiling it
    gives, [None] standing for [re.error]. *)
Record pattern : Type := Pattern {
  p_source : string;
  p_compiled : option regex;
}.

Record var_config : Type := VarConfig {
  v_name : option string;
  v_prompt : option string;
  v_default : option string;
  v_options : option (list string);
  v_validation : option pattern;
}.

Record step : Type := Step {
  s_type : option string;
  s_description : option string;
  s_command : option string;
  s_path : option string;
  s_content : option string;
}.

Record documentation : Type := Documentation {
  d_nextSteps : option (list string);
}.

Record template : Type := Template {
  t_name : option string;
  t_description : option string;
  t_category : option string;
  t_variables : option (list var_config);
  t_prerequisites : option (list string);
  t_steps : option (list step);
  t_postInstall : option (list string);
  t_documentation : option documentation;
  t_filename : option string;
}.

(** [d.get(k, default)]. *)
Definition get {A} (field : option A) (dflt : A) : A := default dflt field.

(** [template['filename'] = stem]. *)
Definition set_filename (t : template) (stem : string) : template :=
  Template (t_name t) (t_description t) (t_category t) (t_variables t)
    (t_prerequisites t) (t_steps t) (t_postInstall t) (t_documentation t)
    (Some stem).

(** [lambda x: x.get('name', '')], the key [list_templates] sorts by. *)
Definition name_key (x : template) : string := get (t_name x) EmptyString.

(** *** The variable mapping

    A Python [dict] keeps its keys in insertion order, and assigning to a key
    that is present changes the value where the key stands. *)
Definition dict : Type := list (string * string).

Fixpoint dict_set (d : dict) (k v : string) : dict :=
  match d with
  | [] => [(k, v)]
  | (k', v') :: rest =>
      if decide (k' = k) then (k, v) :: rest else (k', v') :: dict_set rest k v
  end.

Fixpoint dict_get (d : dict) (k : string) : option string :=
  match d with
  | [] => None
  | (k', v') :: rest => if decide (k' = k) then Some v' else dict_get rest k
  end.

(** *** Exceptions and what is printed

    The exceptions the embedding follows: those the engine raises or
    catches by name, and those of loading a template file and of compiling
    a validation pattern.  It does not follow what else the interpreter can
    raise: a working directory that is gone, an interrupt, a value of
    another type under a key of a document. *)

Inductive exn : Type :=
  | KeyError (key : string)
  | FileNotFoundError (template_name : string)
  | JSONDecodeError (detail : string)
  | EOFError
  | TypeError
  | OSError (detail : string)
  | UnicodeDecodeError (detail : string)
  | ReError (pattern : string).

Inductive result (A : Type) : Type :=
  | Ret (a : A)
  | Raise (e : exn).
Arguments Ret {A} a.
Arguments Raise {A} e.

(** One constructor per [print] (or [input] prompt) of the source, carrying
    the values its f-string interpolates. *)
Inductive message : Type :=
  (* list_templates *)
  | MInvalidTemplateFile (file detail : string)
  (* collect_variables *)
  | MConfiguring (name : string)
  | MDescription (description : string)
  | MPrompt (prompt : string)
  | MRequired
  | MMustBeOneOf (options : list string)
  | MInvalidFormat (pattern : string)
  (* execute_step *)
  | MStep (description : string)
  | MCommandFailed (command : string)
  | MCommandStderr (stderr : string)
  | MCommandStdout (stdout : string)
  | MCommandTimedOut (command : string)
  | MCommandError (detail : string)
  | MCreatedDirectory (path : string)
  | MDirectoryError (detail : string)
  | MCreatedFile (path : string)
  | MFileError (detail : string)
  | MUnknownStepType (step_type : string)
  (* execute_template *)
  | MError (e : exn)
  | MInitializing (name : string)
  | MCheckingPrerequisites
  | MMissingPrerequisite (prereq : string)
  | MPrerequisitesSatisfied
  | MExecutingSteps
  | MStepHeader (i : nat) (description : option string)
  | MFailedAtStep (i : nat)
  | MRunningPostInstall
  | MPostInstallCommand (cmd : string)
  | MSuggestedNextSteps
  | MNextStep (text : string)
  | MSuccess (name : string)
  (* main *)
  | MUsage
  | MNoTemplates
  | MAvailableTemplates
  | MBlank
  | MTemplateLine (name description : string)
  | MTotal (n : nat)
  | MSpecifyTemplateName
  | MInfoTemplate (name : string)
  | MInfoDescription (description : string)
  | MInfoCategory (category : string)
  | MInfoPrerequisites (prereqs : list string)
  | MInfoVariables
  | MInfoVariable (name description : string)
  | MInfoSteps (n : nat)
  | MTemplateNotFound (name : string)
  | MUnknownCommand (command : string).

(** *** The host

    What [subprocess.run] hands back to the engine. *)
Inductive run_outcome : Type :=
  | Completed (returncode : Z) (stdout stderr : string)
  | TimeoutExpired
  | RunError (detail : string).

(** What [open] followed by [json.load] gives for a template file: the
    dictionary of a document; a JSON value that is not a dictionary (a list,
    a string, a number, [true], [false] or [null]); [json.JSONDecodeError]
    for a text that is not JSON; [OSError] when the file cannot be opened or
    read; [UnicodeDecodeError] when its bytes are not text. *)
Inductive loaded : Type :=
  | Document (t : template)
  | Malformed (detail : string)
  | NotADict
  | Unreadable (detail : string)
  | Undecodable (detail : string).

(** What [json.load] returns when it returns. *)
Inductive json_value : Type :=
  | JDict (t : template)
  | JOther.

(** The operating system as the engine uses it: [pathlib]'s pure path
    operations, the queries on the template directory, and the calls that
    change the machine.  A call that can raise returns [Some detail] for the
    exception.  Paths are strings. *)
Class Host : Type := {
  host : Type;
  (* pathlib *)
  is_absolute : string → bool;
  joinpath : string → string → string;
  parent : string → string;
  (* queries; [Path.cwd()] on a working directory that exists *)
  getcwd : host → string;
  templates_dir_exists : host → bool;
  (* stems of [templates_dir.glob("*.json")], in the order glob yields *)
  glob_json : host → list string;
  (* [(templates_dir / f"{name}.json").exists()] *)
  template_file_exists : string → host → bool;
  (* [json.load(open(templates_dir / f"{stem}.json"))] *)
  load_json : string → host → loaded;
  (* [subprocess.run(command, shell=True, cwd=.., capture_output=True,
     text=True, timeout=..)] *)
  subprocess_run : string → option string → option nat → host → run_outcome * host;
  (* [path.mkdir(parents=True, exist_ok=True)] *)
  mkdir_parents : string → host → option string * host;
  (* [with open(path, 'w') as f: f.write(content)] *)
  write_text : string → string → host → option string * host;
  (* [os.system(cmd)] *)
  os_system : string → host → host;
}.

(** *** Exceptions and state: the monad of the methods

    A method is run on a state and gives back a value or a raised exception,
    and the state it leaves. *)
Definition M (S A : Type) : Type := S → result A * S.

Definition ret {S A} (a : A) : M S A := λ s, (Ret a, s).

Definition raise {S A} (e : exn) : M S A := λ s, (Raise e, s).

Definition bind {S A B} (m : M S A) (k : A → M S B) : M S B :=
  λ s, match m s with
       | (Ret a, s') => k a s'
       | (Raise e, s') => (Raise e, s')
       end.

(** [try: m except ...]: [handler e] is the except clause that catches [e],
    if there is one. *)
Definition try_except {S A} (m : M S A) (handler : exn → option (M S A)) : M S A :=
  λ s, match m s with
       | (Ret a, s') => (Ret a, s')
       | (Raise e, s') =>
           match handler e with
           | Some h => h s'
           | None => (Raise e, s')
           end
       end.

Notation "'let*' x ':=' m 'in' k" := (bind m (λ x, k))
  (at level 10, x binder, m at level 100, k at level 200).
Notation "m '>>' k" := (bind m (λ _, k))
  (at level 100, k at level 200, right associativity).

(** The value [json.load] returned, used as a dictionary.  On a value that
    is not one, the first thing either caller of [load_template] does with
    it that can fail is subscripting it with a string ([template['name']],
    or the [in] test on a number or [null] in [collect_variables]), which
    raises [TypeError] before anything is printed or done. *)
Definition as_dict {S} (value : json_value) : M S template :=
  match value with
  | JDict t => ret t
  | JOther => raise TypeError
  end.

(** [d[key]]. *)
Definition item {S A} (key : string) (field : option A) : M S A :=
  match field with
  | Some a => ret a
  | None => raise (KeyError key)
  end.

(** [for x in l: body(x)]. *)
Fixpoint for_each {S A} (l : list A) (body : A → M S unit) : M S unit :=
  match l with
  | [] => ret ()
  | x :: rest => body x >> for_each rest body
  end.

(** [for x in l: if not body(x): return False], followed by what comes after
    the loop being reached with [true]. *)
Fixpoint for_until {S A} (l : list A) (body : A → M S bool) : M S bool :=
  match l with
  | [] => ret true
  | x :: rest =>
      let* ok := body x in
      if ok then for_until rest body else ret false
  end.

(** [enumerate(l, i)]. *)
Fixpoint enumerate {A} (i : nat) (l : list A) : list (nat * A) :=
  match l with
  | [] => []
  | x :: rest => (i, x) :: enumerate (S i) rest
  end.

(** [sorted(l, key=key)] on string keys: stable, ascending. *)
Fixpoint insert_by {A} (key : A → string) (x : A) (l : list A) : list A :=
  match l with
  | [] => [x]
  | y :: rest =>
      if String.leb (key x) (key y) then x :: y :: rest
      else y :: insert_by key x rest
  end.

Definition sorted {A} (key : A → string) (l : list A) : list A :=
  foldr (insert_by key) [] l.

(** *** TemplateEngine *)

Section Methods.

Context {H : Host}.

(** The state a run works on: the lines still to be read from standard
    input, what has been printed so far (oldest first), and the machine. *)
Record World : Type := MkWorld {
  stdin : list string;
  stdout : list message;
  os : host;
}.

Definition print (m : message) : M World unit :=
  λ w, (Ret (), MkWorld (stdin w) (stdout w ++ [m]) (os w)).

(** A call that changes the machine. *)
Definition call {A} (f : host → A * host) : M World A :=
  λ w, let '(a, h) := f (os w) in (Ret a, MkWorld (stdin w) (stdout w) h).

(** A query of the machine. *)
Definition query {A} (f : host → A) : M World A :=
  λ w, (Ret (f (os w)), w).

(** [list_templates]: the loop body for one file of the glob. *)
Definition list_one (templates : list template) (stem : string)
  : M World (list template) :=
  let* doc := query (load_json stem) in
  match doc with
  | Document t => ret (templates ++ [set_filename t stem])
  | Malformed detail =>
      print (MInvalidTemplateFile stem detail) >> ret templates
  (* [template['filename'] = ...] on a value that is not a dictionary *)
  | NotADict => raise TypeError
  | Unreadable detail => raise (OSError detail)
  | Undecodable detail => raise (UnicodeDecodeError detail)
  end.

Fixpoint list_loop (templates : list template) (stems : list string)
  : M World (list template) :=
  match stems with
  | [] => ret templates
  | stem :: rest =>
      let* templates := list_one templates stem in
      list_loop templates rest
  end.

Definition list_templates : M World (list template) :=
  let* present := query templates_dir_exists in
  if negb present then ret []
  else
    let* stems := query glob_json in
    let* templates := list_loop [] stems in
    ret (sorted name_key templates).

Definition load_template (template_name : string) : M World json_value :=
  let* present := query (template_file_exists template_name) in
  if negb present then raise (FileNotFoundError template_name)
  else
    let* doc := query (load_json template_name) in
    match doc with
    | Document t => ret (JDict t)
    | NotADict => ret JOther
    | Malformed detail => raise (JSONDecodeError detail)
    | Unreadable detail => raise (OSError detail)
    | Undecodable detail => raise (UnicodeDecodeError detail)
    end.

(** The value a line of input stands for: stripped, and replaced by the
    default when it is empty and there is a default. *)
Definition resolve (default : string) (line : string) : string :=
  let value := Str.strip line in
  if negb (Str.truthy value) && Str.truthy default then default else value.

(** The three checks of the prompt loop, in the order of the source:
    [Ret (Some m)] is a check that fails, [m] being the message printed
    before [continue]; [Ret None] is a value that passes; [Raise] is
    [re.match] raising [re.error] on a pattern that does not compile, which
    happens only for a value that has passed the first two checks. *)
Definition reject (options : list string) (validation : option pattern)
    (value : string) : result (option message) :=
  if negb (Str.truthy value) then Ret (Some MRequired)
  else if bool_decide (options ≠ []) && negb (bool_decide (value ∈ options))
  then Ret (Some (MMustBeOneOf options))
  else match validation with
       | Some pat =>
           match p_compiled pat with
           | Some compiled =>
               if negb (re_match compiled value)
               then Ret (Some (MInvalidFormat (p_source pat)))
               else Ret None
           | None => Raise (ReError (p_source pat))
           end
       | None => Ret None
       end.

(** The [while True] loop for one variable, on the lines of standard
    input: each round reads one line.  Running out of lines is [input]
    raising [EOFError]. *)
Fixpoint prompt_loop (prompt default : string) (options : list string)
    (validation : option pattern) (lines : list string) (out : list message)
  : result string * list string * list message :=
  match lines with
  | [] => (Raise EOFError, [], out ++ [MPrompt (prompt +:+ ": ")])
  | line :: rest =>
      let out := out ++ [MPrompt (prompt +:+ ": ")] in
      let value := resolve default line in
      match reject options validation value with
      | Ret (Some complaint) =>
          prompt_loop prompt default options validation rest (out ++ [complaint])
      | Ret None => (Ret value, rest, out)
      | Raise e => (Raise e, rest, out)
      end
  end.

(** The prompt as the source builds it. *)
Definition build_prompt (prompt default : string) (options : list string) : string :=
  let prompt :=
    if bool_decide (options ≠ [])
    then prompt +:+ " (" +:+ Str.join "/" options +:+ ")" else prompt in
  if Str.truthy default
  then prompt +:+ " [default: " +:+ default +:+ "]" else prompt.

(** The body of [for var_config in template['variables']]. *)
Definition collect_one (variables : dict) (var_config : var_config)
  : M World dict :=
  let* name := item "name" (v_name var_config) in
  let prompt := get (v_prompt var_config) ("Value for " +:+ name) in
  let default := get (v_default var_config) EmptyString in
  let options := get (v_options var_config) [] in
  let prompt := build_prompt prompt default options in
  let* value :=
    (λ w, let '(r, lines, out) :=
            prompt_loop prompt default options (v_validation var_config)
              (stdin w) (stdout w) in
          (r, MkWorld lines out (os w))) in
  ret (dict_set variables name value).

Fixpoint collect_loop (variables : dict) (configs : list var_config)
  : M World dict :=
  match configs with
  | [] => ret variables
  | var_config :: rest =>
      let* variables := collect_one variables var_config in
      collect_loop variables rest
  end.

Definition collect_variables (template : template) : M World dict :=
  match t_variables template with
  | None => ret []
  | Some configs =>
      let* name := item "name" (t_name template) in
      print (MConfiguring name) >>
      print (MDescription (get (t_description template) EmptyString)) >>
      collect_loop [] configs
  end.

(** The token [{{name}}]. *)
Definition token (name : string) : string := "{{" +:+ name +:+ "}}".

Definition substitute_variables (text : string) (variables : dict) : string :=
  fold_left (λ result '(name, value), Str.replace result (token name) value)
    variables text.

(** The [command] branch of [execute_step]. *)
Definition run_command_step (step : step) (variables : dict)
    (current_dir : string) : M World bool :=
  let* text := item "command" (s_command step) in
  let command := substitute_variables text variables in
  let* outcome := call (subprocess_run command (Some current_dir) (Some 300)) in
  match outcome with
  | Completed returncode out err =>
      if decide (returncode ≠ 0%Z) then
        print (MCommandFailed command) >>
        print (MCommandStderr err) >>
        ret false
      else if Str.truthy (Str.strip out) then
        print (MCommandStdout (Str.strip out)) >> ret true
      else ret true
  | TimeoutExpired => print (MCommandTimedOut command) >> ret false
  | RunError detail => print (MCommandError detail) >> ret false
  end.

(** [Path(p)], made absolute against [current_dir] when it is relative. *)
Definition resolve_path (current_dir p : string) : string :=
  if negb (is_absolute p) then joinpath current_dir p else p.

(** The [directory] branch. *)
Definition run_directory_step (step : step) (variables : dict)
    (current_dir : string) : M World bool :=
  let* text := item "path" (s_path step) in
  let path := substitute_variables text variables in
  let dir_path := resolve_path current_dir path in
  let* failure := call (mkdir_parents dir_path) in
  match failure with
  | None => print (MCreatedDirectory dir_path) >> ret true
  | Some detail => print (MDirectoryError detail) >> ret false
  end.

(** The [file] branch. *)
Definition run_file_step (step : step) (variables : dict)
    (current_dir : string) : M World bool :=
  let* text := item "path" (s_path step) in
  let file_path := substitute_variables text variables in
  let content :=
    substitute_variables (get (s_content step) EmptyString) variables in
  let full_path := resolve_path current_dir file_path in
  let* failure := call (mkdir_parents (parent full_path)) in
  match failure with
  | Some detail => print (MFileError detail) >> ret false
  | None =>
      let* failure := call (write_text full_path content) in
      match failure with
      | Some detail => print (MFileError detail) >> ret false
      | None => print (MCreatedFile full_path) >> ret true
      end
  end.

Definition execute_step (step : step) (variables : dict)
    (current_dir : string) : M World bool :=
  let step_type := get (s_type step) "command" in
  let description := get (s_description step) "Executing step" in
  print (MStep description) >>
  if decide (step_type = "command") then
    run_command_step step variables current_dir
  else if decide (step_type = "directory") then
    run_directory_step step variables current_dir
  else if decide (step_type = "file") then
    run_file_step step variables current_dir
  else
    print (MUnknownStepType step_type) >> ret true.

Definition check_prerequisite (prereq : string) : M World bool :=
  let* outcome := call (subprocess_run ("command -v " +:+ prereq) None None) in
  match outcome with
  | Completed returncode _ _ => ret (bool_decide (returncode = 0%Z))
  | TimeoutExpired | RunError _ => ret false
  end.

(** The body of the step loop of [execute_template]; [false] is the
    [return False] of the source. *)
Definition step_body (variables : dict) (target_dir : string)
    (numbered : nat * step) : M World bool :=
  let '(i, step) := numbered in
  print (MStepHeader i (s_description step)) >>
  let* ok := execute_step step variables target_dir in
  if negb ok then print (MFailedAtStep i) >> ret false else ret true.

Definition prerequisite_body (prereq : string) : M World bool :=
  let* ok := check_prerequisite prereq in
  if negb ok then print (MMissingPrerequisite prereq) >> ret false
  else ret true.

Definition execute_template (template_name : string)
    (target_dir : option string) : M World bool :=
  let* found :=
    try_except
      (let* t := load_template template_name in ret (Some t))
      (λ e, match e with
            | FileNotFoundError _ => Some (print (MError e) >> ret None)
            | _ => None
            end) in
  match found with
  | None => ret false
  | Some value =>
      let* template := as_dict value in
      let* variables := collect_variables template in
      let* target_dir :=
        match target_dir with
        | None => query getcwd
        | Some d => ret d
        end in
      let* name := item "name" (t_name template) in
      print (MInitializing name) >>
      let* ready :=
        match t_prerequisites template with
        | None => ret true
        | Some prereqs =>
            print MCheckingPrerequisites >>
            let* ok := for_until prereqs prerequisite_body in
            if ok then print MPrerequisitesSatisfied >> ret true
            else ret false
        end in
      if negb ready then ret false
      else
        print MExecutingSteps >>
        let* done_ :=
          for_until (enumerate 1 (get (t_steps template) []))
            (step_body variables target_dir) in
        if negb done_ then ret false
        else
          match t_postInstall template with
          | None => ret ()
          | Some commands =>
              print MRunningPostInstall >>
              for_each commands (λ command,
                let cmd := substitute_variables command variables in
                print (MPostInstallCommand cmd) >>
                call (λ h, ((), os_system cmd h)))
          end >>
          match t_documentation template with
          | Some (Documentation (Some next_steps)) =>
              print MSuggestedNextSteps >>
              for_each next_steps (λ text, print (MNextStep text))
          | _ => ret ()
          end >>
          let* name := item "name" (t_name template) in
          print (MSuccess name) >>
          ret true
  end.

(** [main], on [sys.argv]. *)
Definition main (argv : list string) : M World unit :=
  match argv with
  | [] | [_] => print MUsage
  | _ :: command :: args =>
      if decide (command = "list") then
        let* templates := list_templates in
        match templates with
        | [] => print MNoTemplates
        | _ :: _ =>
            print MAvailableTemplates >>
            print MBlank >>
            for_each templates (λ template,
              let* name := item "name" (t_name template) in
              print (MTemplateLine name
                       (get (t_description template) "No description"))) >>
            print MBlank >>
            print (MTotal (length templates))
        end
      else if decide (command = "init") then
        match args with
        | [] => print MSpecifyTemplateName
        | template_name :: _ =>
            execute_template template_name None >> ret ()
        end
      else if decide (command = "info") then
        match args with
        | [] => print MSpecifyTemplateName
        | template_name :: _ =>
            try_except
              (let* value := load_template template_name in
               let* template := as_dict value in
               let* name := item "name" (t_name template) in
               print (MInfoTemplate name) >>
               print (MInfoDescription
                        (get (t_description template) "No description")) >>
               print (MInfoCategory
                        (get (t_category template) "Uncategorized")) >>
               match t_prerequisites template with
               | Some prereqs => print (MInfoPrerequisites prereqs)
               | None => ret ()
               end >>
               match t_variables template with
               | Some configs =>
                   print MInfoVariables >>
                   for_each configs (λ var,
                     let* name := item "name" (v_name var) in
                     print (MInfoVariable name
                              (get (v_prompt var) "No description")))
               | None => ret ()
               end >>
               print (MInfoSteps (length (get (t_steps template) []))))
              (λ e, match e with
                    | FileNotFoundError _ =>
                        Some (print (MTemplateNotFound template_name))
                    | _ => None
                    end)
        end
      else print (MUnknownCommand command)
  end.

(** The exit status of the interpreter running the script: 0 when [main]
    returns, 1 when an exception leaves it. *)
Definition exit_status (argv : list string) (w : World) : nat * World :=
  match main argv w with
  | (Ret _, w') => (0, w')
  | (Raise _, w') => (1, w')
  end.

End Methods.

End Engine.

(* ===================================================================== *)
(** ** The notions the properties are stated with *)
(* ===================================================================== *)

Module Notions.

Import Regex Engine.

(** Ascending by key. *)
Definition key_le {A} (key : A → string) (x y : A) : Prop :=
  String.le (key x) (key y).

(** The entry [(name, value)] answers one of [configs] from one of [lines]:
    the value is what that line resolves to under the variable's default,
    and it passes the variable's checks. *)
Definition answers (configs : list var_config) (lines : list string)
    (entry : string * string) : Prop :=
  ∃ cfg line,
    cfg ∈ configs ∧ v_name cfg = Some entry.1 ∧ line ∈ lines
    ∧ entry.2 = resolve (get (v_default cfg) EmptyString) line
    ∧ reject (get (v_options cfg) []) (v_validation cfg) entry.2 = Ret None.

(** What [execute_step] echoes before anything else. *)
Definition echo (step : step) : message :=
  MStep (get (s_description step) "Executing step").

(** The diagnostics the [command] branch prints for an outcome that is not
    exit status zero. *)
Definition diagnostics (command : string) (outcome : run_outcome)
  : list message :=
  match outcome with
  | Completed _ _ stderr => [MCommandFailed command; MCommandStderr stderr]
  | TimeoutExpired => [MCommandTimedOut command]
  | RunError detail => [MCommandError detail]
  end.

Section OnHost.

Context {H : Host}.

(** The world after [out] has been printed and the machine has become [h]. *)
Definition after (w : World) (out : list message) (h : host) : World :=
MkWorld (stdin w) (stdout w ++ out) h.

(** The documents among the files [stems], in that order, each with its file
  name recorded. *)
Fixpoint parsable (stems : list string) (h : host) : list template :=
match stems with
| [] => []
| stem :: rest =>
    match load_json stem h with
    | Document t => set_filename t stem :: parsable rest h
    | _ => parsable rest h
    end
end.

(** One warning for each file among [stems] that does not parse. *)
Fixpoint warnings (stems : list string) (h : host) : list message :=
match stems with
| [] => []
| stem :: rest =>
    match load_json stem h with
    | Malformed detail => MInvalidTemplateFile stem detail :: warnings rest h
    | _ => warnings rest h
    end
end.

(** [in_order variables target_dir i steps w w']: starting in [w], each of
  [steps] is executed once, in the order of the list and numbered from
  [i], each on the world the one before it left, and each returns [true];
  [w'] is the world the last one leaves. *)
Inductive in_order (variables : dict) (target_dir : string)
: nat → list step → World → World → Prop :=
| in_order_nil (i : nat) (w : World) :
    in_order variables target_dir i [] w w
| in_order_cons (i : nat) (step : step) (rest : list Engine.step)
    (w w1 w2 : World) :
    execute_step step variables target_dir
      (after w [MStepHeader i (s_description step)] (os w))
    = (Ret true, w1) →
    in_order variables target_dir (S i) rest w1 w2 →
    in_order variables target_dir i (step :: rest) w w2.

End OnHost.

End Notions.

(* ===================================================================== *)
(** ** A concrete host *)
(* ===================================================================== *)

(** A small machine to run the engine on: directories and files by path, the
    template directory as a list of files, and a shell that knows a handful
    of commands and remembers what it was asked to run. *)
Module Toy.

Import Engine.

Record machine : Type := Machine {
  m_cwd : string;
  m_templates : option (list (string * loaded));
  m_dirs : list string;
  m_files : list (string * string);
  m_history : list string;
}.

Definition toy_is_absolute (p : string) : bool := String.prefix "/" p.

Definition toy_joinpath (a b : string) : string := a +:+ "/" +:+ b.

(** The part of [s] before its last slash, when it has one. *)
Fixpoint before_last_slash (s : string) : option string :=
  match s with
  | EmptyString => None
  | String c t =>
      match before_last_slash t with
      | Some r => Some (String c r)
      | None => if decide (c = "/"%char) then Some EmptyString else None
      end
  end.

Definition toy_parent (p : string) : string :=
  match before_last_slash p with
  | Some EmptyString => "/"
  | Some r => r
  | None => "."
  end.

Fixpoint assoc {A} (k : string) (l : list (string * A)) : option A :=
  match l with
  | [] => None
  | (k', a) :: rest => if decide (k' = k) then Some a else assoc k rest
  end.

Definition toy_files (m : machine) : list (string * loaded) :=
  default [] (m_templates m).

Definition toy_load (stem : string) (m : machine) : loaded :=
  default (Malformed "unreadable") (assoc stem (toy_files m)).

Definition remember (cmd : string) (m : machine) : machine :=
  Machine (m_cwd m) (m_templates m) (m_dirs m) (m_files m) (m_history m ++ [cmd]).

Definition toy_shell (cmd : string) (timeout : option nat) : run_outcome :=
  if decide (cmd = "true") then Completed 0 EmptyString EmptyString
  else if decide (cmd = "exit 1") then Completed 1 EmptyString "failed"
  else if decide (cmd = "echo hi") then Completed 0 "hi" EmptyString
  else if decide (cmd = "sleep 1000") then
    match timeout with
    | Some _ => TimeoutExpired
    | None => Completed 0 EmptyString EmptyString
    end
  else if decide (cmd = "no-shell") then RunError "cannot start"
  else if decide (cmd = "command -v git") then Completed 0 "/usr/bin/git" EmptyString
  else if String.prefix "command -v " cmd then Completed 1 EmptyString EmptyString
  else Completed 127 EmptyString "command not found".

Definition toy_run (cmd : string) (cwd : option string) (timeout : option nat)
    (m : machine) : run_outcome * machine :=
  (toy_shell cmd timeout, remember cmd m).

Definition toy_mkdir (p : string) (m : machine) : option string * machine :=
  if bool_decide (p ∈ (m_files m).*1) then (Some "FileExistsError", m)
  else if bool_decide (p ∈ m_dirs m) then (None, m)
  else (None, Machine (m_cwd m) (m_templates m) (p :: m_dirs m) (m_files m)
                (m_history m)).

Definition toy_write (p content : string) (m : machine) : option string * machine :=
  if bool_decide (p ∈ m_dirs m) then (Some "IsADirectoryError", m)
  else (None, Machine (m_cwd m) (m_templates m) (m_dirs m)
                (dict_set (m_files m) p content) (m_history m)).

Definition toy : Host := {|
  host := machine;
  is_absolute := toy_is_absolute;
  joinpath := toy_joinpath;
  parent := toy_parent;
  getcwd := m_cwd;
  templates_dir_exists := λ m, bool_decide (is_Some (m_templates m));
  glob_json := λ m, (toy_files m).*1;
  template_file_exists := λ stem m, bool_decide (is_Some (assoc stem (toy_files m)));
  load_json := toy_load;
  subprocess_run := toy_run;
  mkdir_parents := toy_mkdir;
  write_text := toy_write;
  os_system := remember;
|}.

(** Documents with only the given keys. *)
Definition command_step (command : string) : step :=
  Step (Some "command") None (Some command) None None.
Definition directory_step (path : string) : step :=
  Step (Some "directory") None None (Some path) None.
Definition file_step (path : string) (content : option string) : step :=
  Step (Some "file") None None (Some path) content.

Definition plain_template (name : string) (steps : list step) : template :=
  Template (Some name) None None None None (Some steps) None None None.

(** A machine with a working directory [/work] and the given template
    directory. *)
Definition machine0 (templates : option (list (string * loaded))) : machine :=
  Machine "/work" templates ["/work"] [] [].

Definition world (lines : list string) (out : list message) (m : machine)
    : World (H := toy) :=
  MkWorld lines out (m : @host toy).

Definition world0 (lines : list string)
    (templates : option (list (string * loaded))) : World (H := toy) :=
  world lines [] (machine0 templates).

End Toy.

(** Documents and machines the engine is run on below. *)
Module Samples.

Import Regex Engine.

Definition lower : regex := Cls [("a"%char, "z"%char)].

(** The pattern [^[a-z]+$]. *)
Definition anchored : regex := Cat Bol (Cat (Plus lower) Eol).

(** The pattern [[a-z]+]. *)
Definition unanchored : regex := Plus lower.

(** The two as the strings a template holds, and a string that is no
    pattern. *)
Definition anchored_pattern : pattern := Pattern "^[a-z]+$" (Some anchored).

Definition unanchored_pattern : pattern := Pattern "[a-z]+" (Some unanchored).

Definition broken_pattern : pattern := Pattern "[" None.

(** Two variables: [env] with options and a default, [app] with a
    pattern. *)
Definition demo_template : template :=
  Template (Some "demo") None None
    (Some [VarConfig (Some "env") None (Some "dev") (Some ["dev"; "prod"]) None;
           VarConfig (Some "app") (Some "App name") None None
             (Some anchored_pattern)])
    None None None None None.

(** A step of a kind this engine does not know. *)
Definition download_step : step :=
  Step (Some "download") (Some "Fetch assets") None None None.

(** The example of the specification: a directory that can be created, a
    command that exits with status 1, and a file that is never reached. *)
Definition scaffold_steps : list step :=
  [Toy.directory_step "src"; Toy.command_step "exit 1";
   Toy.file_step "src/main.txt" (Some "hello")].

Definition scaffold : template := Toy.plain_template "scaffold" scaffold_steps.

(** A template directory with [scaffold] and a corrupt file. *)
Definition store : option (list (string * loaded)) :=
  Some [("scaffold", Document scaffold); ("broken", Malformed "Expecting value")].

(** The machine once [src] has been created, and once the command has been
    run as well. *)
Definition machine_dir : Toy.machine :=
  Toy.Machine "/work" store ["/work/src"; "/work"] [] [].

Definition machine_failed : Toy.machine :=
  Toy.Machine "/work" store ["/work/src"; "/work"] [] ["exit 1"].

End Samples.

(* ===================================================================== *)
(** ** Saving a template *)
(* ===================================================================== *)

Module Saving.

Import Engine.

(** The two lines [save_template] prints. *)
Inductive save_message : Type :=
  | MTemplateSaved (template_file : string)
  | MSaveError (detail : string).

(** What [save_template] asks of the machine beyond [Host]: where the
    template directory is, and writing a document as JSON.  [dump_json] is
    [with open(template_file, 'w') as f: json.dump(data, f, indent=2)], with
    [Some detail] for an exception. *)
Class Disk (H : Host) : Type := {
  templates_dir : string;
  dump_json : string → template → host → option string * host;
}.

Section Save.

Context {H : Host} {D : Disk H}.

(** [save_template] reads no input; its state is what it has printed and the
    machine. *)
Record SaveWorld : Type := MkSaveWorld {
  printed : list save_message;
  machine : host;
}.

Definition save_print (m : save_message) : M SaveWorld unit :=
  λ w, (Ret (), MkSaveWorld (printed w ++ [m]) (machine w)).

Definition save_call {A} (f : host → A * host) : M SaveWorld A :=
  λ w, let '(a, h) := f (machine w) in (Ret a, MkSaveWorld (printed w) h).

Definition save_template (template_name : string) (template_data : template)
  : M SaveWorld bool :=
  let* failure := save_call (mkdir_parents templates_dir) in
  match failure with
  | Some detail => save_print (MSaveError detail) >> ret false
  | None =>
      let template_file := joinpath templates_dir (template_name +:+ ".json") in
      let* failure := save_call (dump_json template_file template_data) in
      match failure with
      | Some detail => save_print (MSaveError detail) >> ret false
      | None => save_print (MTemplateSaved template_file) >> ret true
      end
  end.

End Save.

(** The toy machine as a disk: a document is written as a file holding its
    name, unless its path is a directory. *)
Definition toy_dump (template_file : string) (data : template) (m : Toy.machine)
  : option string * Toy.machine :=
  Toy.toy_write template_file (get (t_name data) EmptyString) m.

Definition toy_disk : Disk Toy.toy := {|
  templates_dir := "/home/mcf/templates";
  dump_json :=
    (toy_dump : string → template → @host Toy.toy
                → option string * @host Toy.toy);
|}.

Definition save_world (m : Toy.machine) : SaveWorld (H := Toy.toy) :=
  MkSaveWorld [] (m : @host Toy.toy).

End Saving.

(* ===================================================================== *)
(** ** Further notions *)
(* ===================================================================== *)

Module MoreNotions.

Import Regex Engine Notions.


(** What can be said of an exception that leaves a run after the template
    has been loaded: a [KeyError] is for one of the three keys the engine
    subscripts, and it is never the [JSONDecodeError] of the load. *)
Definition escaping (e : exn) : Prop :=
  match e with
  | KeyError key => key ∈ ["name"; "command"; "path"]
  | JSONDecodeError _ => False
  | _ => True
  end.

(** A file whose load [list_templates] neither takes nor skips. *)
Definition breaks (doc : loaded) : bool :=
  match doc with
  | Document _ | Malformed _ => false
  | NotADict | Unreadable _ | Undecodable _ => true
  end.

(** The exception such a load ends in. *)
Definition broken_by (doc : loaded) : exn :=
  match doc with
  | Unreadable detail => OSError detail
  | Undecodable detail => UnicodeDecodeError detail
  | _ => TypeError
  end.

(** The variable names of a list of specs, in order. *)
Definition names (configs : list var_config) : list string :=
  omap v_name configs.

Section OnHost.

Context {H : Host}.

(** What [list_templates] returns on a machine, when it returns. *)
Definition listed (h : host) : list template :=
  if templates_dir_exists h then sorted name_key (parsable (glob_json h) h)
  else [].

(** The template directory holds a file that breaks the listing. *)
Definition aborts (h : host) : bool :=
  templates_dir_exists h
  && existsb (λ stem, breaks (load_json stem h)) (glob_json h).

(** The prerequisite phase of a run of [t] takes [w1] to [w2] and lets the
    run go on: there are no prerequisites, or each of them is checked in
    order and found. *)
Definition prerequisites_pass (t : template) (w1 w2 : World) : Prop :=
  match t_prerequisites t with
  | None => w2 = w1
  | Some prereqs =>
      ∃ w', for_until prereqs prerequisite_body
              (after w1 [MCheckingPrerequisites] (os w1)) = (Ret true, w')
            ∧ w2 = after w' [MPrerequisitesSatisfied] (os w')
  end.

(** What the post-install loop and the next steps print. *)
Definition closing_lines (variables : dict) (t : template) : list message :=
  match t_postInstall t with
  | Some commands =>
      MRunningPostInstall
      :: map (λ command,
                MPostInstallCommand (substitute_variables command variables))
           commands
  | None => []
  end
  ++ match t_documentation t with
     | Some (Documentation (Some next_steps)) =>
         MSuggestedNextSteps :: map MNextStep next_steps
     | _ => []
     end.

(** [m] changes neither the machine nor the input, whatever it returns. *)
Definition read_only {A} (m : M World A) : Prop :=
  ∀ w, os (m w).2 = os w ∧ stdin (m w).2 = stdin w.

(** Every exception that leaves [m] satisfies [P]. *)
Definition raises_only {A} (P : exn → Prop) (m : M World A) : Prop :=
  ∀ w e w', m w = (Raise e, w') → P e.

(** The machine after [os.system] has been called on each of [commands],
    substituted, in order. *)
Definition after_post_install (variables : dict) (commands : list string)
    (h : host) : host :=
  fold_left (λ h command, os_system (substitute_variables command variables) h)
    commands h.

End OnHost.

End MoreNotions.

(** More documents to run the engine on. *)
Module MoreSamples.

Import Regex Engine.

(** A template that asks for a tool the toy shell does not know. *)
Definition gated : template :=
  Template (Some "gated") None None None
    (Some ["git"; "definitely-not-a-real-tool-xyz"])
    (Some [Toy.directory_step "src"]) None None None.

(** A document without a [name] key. *)
Definition nameless : template :=
  Template None (Some "No name") None None None
    (Some [Toy.directory_step "src"]) None None None.

(** A template with everything: a variable, a prerequisite, two steps, three
    post-install commands of which the second fails, and next steps. *)
Definition complete : template :=
  Template (Some "complete") None None
    (Some [VarConfig (Some "app") None None None None])
    (Some ["git"])
    (Some [Toy.directory_step "{{app}}"; Toy.command_step "true"])
    (Some ["echo hi"; "exit 1"; "true"])
    (Some (Documentation (Some ["cd {{app}}"])))
    None.

(** Two variables with loose constraints: a pattern without an end anchor,
    and an options list that is given and empty. *)
Definition loose_template : template :=
  Template (Some "loose") None None
    (Some [VarConfig (Some "app") None None None
             (Some Samples.unanchored_pattern);
           VarConfig (Some "env") None None (Some []) None])
    None None None None None.

(** A template directory in which a file holding the JSON list [[]] stands
    between two good templates. *)
Definition mixed_store : option (list (string * loaded)) :=
  Some [("web", Document (Toy.plain_template "zeta" []));
        ("odd", NotADict);
        ("cli", Document (Toy.plain_template "alpha" []))].

(** A variable whose pattern is no regular expression. *)
Definition unmatched_template : template :=
  Template (Some "unmatched") None None
    (Some [VarConfig (Some "app") None None None (Some Samples.broken_pattern)])
    None None None None None.

Definition shelf : option (list (string * loaded)) :=
  Some [("gated", Document gated); ("nameless", Document nameless);
        ("complete", Document complete);
        ("broken", Malformed "Expecting value")].

End MoreSamples.

(* ===================================================================== *)
(** ** Facts about the string primitives *)
(* ===================================================================== *)

Module StrFacts.

Import Str.

Section Facts.

Lemma str_app_nil (t : string) : EmptyString +:+ t = t.
Proof. reflexivity. Qed.

Lemma str_app_cons c (s t : string) : String c s +:+ t = String c (s +:+ t).
Proof. reflexivity. Qed.

Lemma str_app_empty_r (s : string) : s +:+ EmptyString = s.
Proof.
  induction s as [|c s IH]; [done |]. by rewrite str_app_cons, IH.
Qed.

Lemma str_app_assoc (a b c : string) : (a +:+ b) +:+ c = a +:+ (b +:+ c).
Proof.
  induction a as [|x a IH]; [done |]. by rewrite !str_app_cons, IH.
Qed.

Lemma prefix_app (p r : string) : String.prefix p (p +:+ r) = true.
Proof.
  induction p as [|c p IH]; [by destruct r |].
  rewrite str_app_cons. unfold String.prefix; fold String.prefix.
  destruct (Ascii.ascii_dec c c); [done | congruence].
Qed.

Lemma prefix_inv (p s : string) :
  String.prefix p s = true → ∃ r, s = p +:+ r.
Proof.
  revert s; induction p as [|c p IH]; intros s H.
  - exists s. reflexivity.
  - destruct s as [|d s]; [done |].
    unfold String.prefix in H; fold String.prefix in H.
    destruct (Ascii.ascii_dec c d) as [->|]; [| done].
    destruct (IH _ H) as [r ->]. exists r. by rewrite str_app_cons.
Qed.

Lemma scan_skip old new (u t : string) :
  scan old new (String.length u) (u +:+ t) = scan old new 0 t.
Proof.
  induction u as [|c u IH]; [by destruct t |].
  rewrite str_app_cons. simpl. apply IH.
Qed.

(** An occurrence of [old] at the head is replaced and the scan resumes
    after it. *)
Lemma replace_hit (old new t : string) :
  old ≠ EmptyString → replace (old +:+ t) old new = new +:+ replace t old new.
Proof.
  destruct old as [|c o]; [done | intros _].
  unfold replace. rewrite str_app_cons. cbn [scan].
  rewrite <- str_app_cons, prefix_app. f_equal.
  cbn [String.length].
  replace (S (String.length o) - 1) with (String.length o) by lia.
  apply scan_skip.
Qed.

(** A position where [old] does not start is copied. *)
Lemma replace_miss (old new : string) c t :
  old ≠ EmptyString → String.prefix old (String c t) = false →
  replace (String c t) old new = String c (replace t old new).
Proof.
  destruct old as [|d o]; [done | intros _ H].
  unfold replace. cbn [scan]. by rewrite H.
Qed.

Lemma replace_empty (old new : string) : old ≠ EmptyString → replace EmptyString old new = EmptyString.
Proof. by destruct old. Qed.

(** The whole string being one occurrence, the result is [new] as it is. *)
Lemma replace_self (old new : string) : old ≠ EmptyString → replace old old new = new.
Proof.
  intros H. rewrite <- (str_app_empty_r old) at 1.
  rewrite replace_hit, replace_empty by done. apply str_app_empty_r.
Qed.

Lemma occurs_tail (old : string) c t : occurs old t → occurs old (String c t).
Proof. intros (pre & post & ->). exists (String c pre), post. by rewrite str_app_cons. Qed.

(** Without an occurrence of [old], [replace] changes nothing. *)
Lemma replace_absent (s old new : string) :
  old ≠ EmptyString → ¬ occurs old s → replace s old new = s.
Proof.
  intros Hne. induction s as [|c t IH]; intros Hno.
  - by apply replace_empty.
  - destruct (String.prefix old (String c t)) eqn:Hp.
    + exfalso. apply Hno. destruct (prefix_inv _ _ Hp) as [r Hr].
      exists EmptyString, r. by rewrite Hr.
    + rewrite replace_miss by done. f_equal. apply IH.
      intros Ho. apply Hno. by apply occurs_tail.
Qed.

Lemma occurs_contains (old s : string) :
  occurs old s → contains old s = true.
Proof.
  intros (pre & post & ->).
  induction pre as [|c pre IH].
  - rewrite str_app_nil. pose proof (prefix_app old post) as Hp.
    destruct (old +:+ post); cbn [contains]; rewrite Hp; done.
  - rewrite str_app_cons. cbn [contains]. rewrite IH. apply orb_true_r.
Qed.

Lemma replace_without (s old new : string) :
  old ≠ EmptyString → contains old s = false → replace s old new = s.
Proof.
  intros Hne Hc. apply replace_absent; [done |].
  intros Ho. apply occurs_contains in Ho. congruence.
Qed.

End Facts.

End StrFacts.

Module RegexExamples.

Import Regex Samples.

Example anchored_rejects : re_match anchored "My-App" = false.
Proof. reflexivity. Qed.
Example anchored_accepts : re_match anchored "myapp" = true.
Proof. reflexivity. Qed.
Example unanchored_prefix : re_match unanchored "myapp-X" = true.
Proof. reflexivity. Qed.
Example unanchored_not_full : re_fullmatch unanchored "myapp-X" = false.
Proof. reflexivity. Qed.
End RegexExamples.

(* ===================================================================== *)
(** ** Substitution *)
(* ===================================================================== *)

Module Substitution.

Import Str StrFacts Engine.

Lemma token_nonempty (name : string) : token name ≠ EmptyString.
Proof. unfold token. rewrite !str_app_cons. discriminate. Qed.

(** The replacements are made one mapping entry after the other, each on the
    text the previous ones left. *)
Lemma substitute_cons (text name value : string) (rest : dict) :
  substitute_variables text ((name, value) :: rest)
  = substitute_variables (replace text (token name) value) rest.
Proof. reflexivity. Qed.

Lemma substitute_app (text : string) (d1 d2 : dict) :
  substitute_variables text (d1 ++ d2)
  = substitute_variables (substitute_variables text d1) d2.
Proof. unfold substitute_variables. apply fold_left_app. Qed.

(** A text none of whose entries' tokens occurs in it stays as it is. *)
Lemma substitute_untouched (text : string) (d : dict) :
  Forall (λ m, contains (token m) text = false) d.*1 →
  substitute_variables text d = text.
Proof.
  induction d as [|[m v] d IH]; intros Hd; [done |].
  inversion Hd as [|? ? Hm Hrest]; subst.
  rewrite substitute_cons, replace_without by (done || apply token_nonempty).
  by apply IH.
Qed.

(** C1, as the specification states it, fails: the value [{{b}}] put in
    place of [{{a}}] is scanned again when the entry for [b] is processed,
    and comes out expanded. *)
Lemma substitute_rescans_value :
  dict_get [("a", "{{b}}"); ("b", "X")] "a" = Some "{{b}}"
  ∧ substitute_variables "{{a}}" [("a", "{{b}}"); ("b", "X")] = "X"
  ∧ substitute_variables "{{a}}" [("a", "{{b}}"); ("b", "X")] ≠ "{{b}}".
Proof.
  split; [reflexivity |]. split; [reflexivity |]. vm_compute. discriminate.
Qed.

(** The instance the specification gives does hold: with [a] alone in the
    mapping nothing scans the value again. *)
Example substitute_single_entry :
  substitute_variables "{{a}}" [("a", "{{b}}")] = "{{b}}".
Proof. reflexivity. Qed.

(** A token can also come about across the border of a value and the text
    around it: [1] holds no token, and [{{1}}] is one once it stands
    between the braces the text had. *)
Example token_across_border :
  substitute_variables "{{{{a}}}}" [("a", "1"); ("1", "Z")] = "Z".
Proof. reflexivity. Qed.

(** A value that holds its own token is put in as it is. *)
Example own_token_is_kept :
  substitute_variables "{{a}}" [("a", "{{a}}{{a}}")] = "{{a}}{{a}}".
Proof. reflexivity. Qed.

(** C1 (amended): for every text and mapping, substitution is one [replace]
    pass per mapping entry, in the order of the mapping, each on the text
    the passes before it left: the passes of the entries before [name] see
    the text alone, and the passes of the entries after it see the text the
    pass of [name] left, the values put in included.  Within its pass a
    value is not scanned: the pass copies a character where the token does
    not start, and where the token starts it puts the value as it is, and
    goes on behind the token.  The text the pass of [name] left is the
    result when no token of a later entry occurs in it.  For the text
    [{{name}}], in which no token of an earlier entry occurs, the result is
    [value] itself when no token of a later entry occurs in [value]. *)
Theorem substitute_pass_by_pass
    (text : string) (before after : dict) (name value : string) :
  substitute_variables text (before ++ (name, value) :: after)
  = substitute_variables
      (replace (substitute_variables text before) (token name) value) after
  ∧ replace EmptyString (token name) value = EmptyString
  ∧ (∀ s, replace (token name +:+ s) (token name) value
          = value +:+ replace s (token name) value)
  ∧ (∀ c s, String.prefix (token name) (String c s) = false →
            replace (String c s) (token name) value
            = String c (replace s (token name) value))
  ∧ (Forall (λ m, contains (token m)
                    (replace (substitute_variables text before) (token name)
                       value) = false) after.*1 →
     substitute_variables text (before ++ (name, value) :: after)
     = replace (substitute_variables text before) (token name) value)
  ∧ (text = token name →
     Forall (λ m, contains (token m) (token name) = false) before.*1 →
     Forall (λ m, contains (token m) value = false) after.*1 →
     substitute_variables text (before ++ (name, value) :: after) = value).
Proof.
  assert (Hpasses :
    substitute_variables text (before ++ (name, value) :: after)
    = substitute_variables
        (replace (substitute_variables text before) (token name) value) after).
  { by rewrite substitute_app, substitute_cons. }
  split; [exact Hpasses |].
  split; [apply replace_empty, token_nonempty |].
  split; [intros s; apply replace_hit, token_nonempty |].
  split; [intros c s Hmiss; by apply replace_miss; [apply token_nonempty |] |].
  split.
  - intros Hafter. rewrite Hpasses. by apply substitute_untouched.
  - intros -> Hbefore Hafter. rewrite Hpasses.
    rewrite (substitute_untouched (token name) before) by done.
    rewrite replace_self by apply token_nonempty.
    by apply substitute_untouched.
Qed.

(** Among entries that leave it alone, the value comes out as it is:
    [mkdir {{a}}] under [{x: 1, a: {{b}}, c: Z}] is [mkdir {{b}}], and the
    example of the specification, [{{a}}] under the same mapping, is the
    literal [{{b}}]. *)
Lemma substitute_pass_by_pass_witness :
  substitute_variables "mkdir {{a}}" [("x", "1"); ("a", "{{b}}"); ("c", "Z")]
  = "mkdir {{b}}"
  ∧ substitute_variables "{{a}}" [("x", "1"); ("a", "{{b}}"); ("c", "Z")]
    = "{{b}}".
Proof.
  split.
  - apply (proj1 (proj2 (proj2 (proj2 (proj2
             (substitute_pass_by_pass "mkdir {{a}}" [("x", "1")] [("c", "Z")]
                "a" "{{b}}")))))).
    repeat constructor.
  - apply (proj2 (proj2 (proj2 (proj2 (proj2
             (substitute_pass_by_pass "{{a}}" [("x", "1")] [("c", "Z")]
                "a" "{{b}}")))))); [reflexivity | |]; repeat constructor.
Defined.

End Substitution.

(* ===================================================================== *)
(** ** The regular expression matcher *)
(* ===================================================================== *)

Module RegexFacts.

Import Str StrFacts Regex.


Lemma ahead_refl (p : point) : ahead p p.
Proof. exists EmptyString. split; [reflexivity | simpl; lia]. Qed.

Lemma length_app (a b : string) :
  String.length (a +:+ b) = String.length a + String.length b.
Proof.
  induction a as [|c a IH]; [done |]. rewrite str_app_cons. simpl. by rewrite IH.
Qed.

Lemma ahead_trans (p q r : point) : ahead p q → ahead q r → ahead p r.
Proof.
  intros (a & Ha & Hn) (b & Hb & Hm). exists (a +:+ b). split.
  - by rewrite Ha, Hb, str_app_assoc.
  - rewrite length_app. lia.
Qed.

Lemma eat_ahead (ok : ascii → bool) (p q : point) : q ∈ eat ok p → ahead p q.
Proof.
  unfold eat. destruct p as [n s]; simpl. destruct s as [|c t].
  - intros Hq. inversion Hq.
  - destruct (ok c); intros Hq; [| inversion Hq].
    apply list_elem_of_singleton in Hq as ->.
    exists (String c EmptyString). split; [reflexivity | simpl; lia].
Qed.

Lemma star_ahead (f : point → list point) :
  (∀ p q, q ∈ f p → ahead p q) →
  ∀ fuel p q, q ∈ star f fuel p → ahead p q.
Proof.
  intros Hf. induction fuel as [|k IH]; intros p q Hq; simpl in Hq.
  - apply list_elem_of_singleton in Hq as ->. apply ahead_refl.
  - apply elem_of_cons in Hq as [->|Hq]; [apply ahead_refl |].
    apply list_elem_of_In, in_flat_map in Hq as (m & Hm & Hq).
    apply list_elem_of_In, list_elem_of_filter in Hm as [_ Hm].
    apply ahead_trans with m; [by apply Hf | apply IH, list_elem_of_In, Hq].
Qed.

(** Every end of a match is ahead of its start: a match covers a prefix of
    what was ahead. *)
Lemma ends_ahead (r : regex) : ∀ p q, q ∈ ends r p → ahead p q.
Proof.
  induction r as [| c | ranges | | r1 IH1 r2 IH2 | r1 IH1 r2 IH2 | r IH | |];
    intros p q Hq; simpl in Hq.
  - apply list_elem_of_singleton in Hq as ->. apply ahead_refl.
  - by apply eat_ahead in Hq.
  - by apply eat_ahead in Hq.
  - by apply eat_ahead in Hq.
  - apply list_elem_of_In, in_flat_map in Hq as (m & Hm & Hq).
    apply ahead_trans with m; [apply IH1, list_elem_of_In, Hm |].
    apply IH2, list_elem_of_In, Hq.
  - apply elem_of_app in Hq as [Hq|Hq]; [by apply IH1 | by apply IH2].
  - by apply star_ahead in Hq.
  - destruct (decide (p.1 = 0)); [| inversion Hq].
    apply list_elem_of_singleton in Hq as ->. apply ahead_refl.
  - destruct (decide _); [| inversion Hq].
    apply list_elem_of_singleton in Hq as ->. apply ahead_refl.
Qed.

(** What a truthy [re.match] says: the pattern matches a prefix of the
    value; nothing is asked of the rest. *)
Lemma re_match_prefix (pattern : regex) (value : string) :
  re_match pattern value = true →
  ∃ pre rest, value = pre +:+ rest ∧ (String.length pre, rest) ∈ ends pattern (0, value).
Proof.
  unfold re_match. destruct (ends pattern (0, value)) as [|q l] eqn:E; [done |].
  intros _. assert (Hq : q ∈ ends pattern (0, value)) by (rewrite E; left).
  destruct (ends_ahead _ _ _ Hq) as (pre & Hv & Hn). simpl in *.
  exists pre, q.2. split; [done |]. rewrite <- E.
  destruct q as [n s]; simpl in *. by subst n.
Qed.

End RegexFacts.

(* ===================================================================== *)
(** ** The monad *)
(* ===================================================================== *)

Module MonadFacts.

Import Engine.

Lemma bind_Ret {S A B} (m : M S A) (k : A → M S B) (s s1 : S) (a : A) :
  m s = (Ret a, s1) → bind m k s = k a s1.
Proof. unfold bind. by intros ->. Qed.


Lemma bind_Ret_inv {S A B} (m : M S A) (k : A → M S B) (s s' : S) (b : B) :
  bind m k s = (Ret b, s') →
  ∃ a s1, m s = (Ret a, s1) ∧ k a s1 = (Ret b, s').
Proof.
  unfold bind. destruct (m s) as [[a|e] s1]; [eauto | discriminate].
Qed.

Lemma item_Ret_inv {S A} (key : string) (field : option A) (s s' : S) (a : A) :
  item key field s = (Ret a, s') → field = Some a ∧ s' = s.
Proof.
  destruct field; simpl; unfold ret, raise; intros [= <- <-] || intros [=]; done.
Qed.


End MonadFacts.

(* ===================================================================== *)
(** ** The variable collector *)
(* ===================================================================== *)

Module Collector.

Import Str Regex RegexFacts Engine MonadFacts.

(** What passing the three checks means. *)
Lemma reject_None (options : list string) (validation : option pattern) (value : string) :
  reject options validation value = Ret None →
  value ≠ EmptyString
  ∧ (options ≠ [] → value ∈ options)
  ∧ (∀ pat, validation = Some pat →
       ∃ compiled, p_compiled pat = Some compiled
                   ∧ re_match compiled value = true).
Proof.
  unfold reject. destruct value as [|c v]; [done |]. simpl.
  assert (Hpat : match validation with
                 | Some pat =>
                     match p_compiled pat with
                     | Some compiled =>
                         if negb (re_match compiled (String c v))
                         then Ret (Some (MInvalidFormat (p_source pat)))
                         else Ret None
                     | None => Raise (ReError (p_source pat))
                     end
                 | None => Ret None
                 end = Ret None →
                 ∀ pat, validation = Some pat →
                   ∃ compiled, p_compiled pat = Some compiled
                               ∧ re_match compiled (String c v) = true).
  { intros Hv pat ->. destruct (p_compiled pat) as [compiled|]; [| done].
    destruct (re_match compiled _) eqn:Hm; [| done]. by exists compiled. }
  case_bool_decide as Ho; simpl.
  - case_bool_decide as Hin; simpl; [| done].
    intros Hv. split; [done |]. split; [done | by apply Hpat].
  - intros Hv. split; [done |]. split; [done | by apply Hpat].
Qed.

(** A value that passes the first two checks and on which [re.match]
    succeeds passes. *)
Lemma reject_match (options : list string) (pat : pattern) (compiled : regex)
    (value : string) :
  p_compiled pat = Some compiled →
  value ≠ EmptyString →
  (options ≠ [] → value ∈ options) →
  re_match compiled value = true →
  reject options (Some pat) value = Ret None.
Proof.
  intros Hc Hne Hopts Hm. unfold reject. rewrite Hc, Hm.
  destruct value as [|c v]; [done |]. simpl.
  case_bool_decide as Ho; simpl; [| done].
  case_bool_decide as Hin; simpl; [done |]. exfalso. by apply Hin, Hopts.
Qed.

(** A value on which [re.match] fails is complained about. *)
Lemma reject_no_match (options : list string) (pat : pattern) (compiled : regex)
    (value : string) :
  p_compiled pat = Some compiled →
  re_match compiled value = false →
  ∃ complaint, reject options (Some pat) value = Ret (Some complaint).
Proof.
  intros Hc Hm. unfold reject. rewrite Hc, Hm. simpl.
  destruct (negb (truthy value)); [eauto |].
  destruct (_ && _); eauto.
Qed.

(** A value that is empty or outside the options is complained about,
    whatever the pattern. *)
Lemma reject_violation (options : list string) (validation : option pattern)
    (value : string) :
  value = EmptyString ∨ (options ≠ [] ∧ value ∉ options) →
  ∃ complaint, reject options validation value = Ret (Some complaint).
Proof.
  intros [-> | [Ho Hin]]; unfold reject; [by eexists |].
  destruct (negb (truthy value)); [by eexists |].
  rewrite !bool_decide_eq_true_2 by done.
  rewrite bool_decide_eq_false_2 by done. simpl. by eexists.
Qed.

(** A line that is complained about is followed by another prompt. *)
Lemma prompt_loop_complaint prompt default options validation line rest out
    complaint :
  reject options validation (resolve default line) = Ret (Some complaint) →
  prompt_loop prompt default options validation (line :: rest) out
  = prompt_loop prompt default options validation rest
      ((out ++ [MPrompt (prompt +:+ ": ")]) ++ [complaint]).
Proof. intros Hr. simpl. by rewrite Hr. Qed.

(** The prompt loop returns the value of the first line that passes the
    checks, having complained about every line before it. *)
Lemma prompt_loop_Ret prompt default options validation lines out value rest out' :
  prompt_loop prompt default options validation lines out = (Ret value, rest, out') →
  ∃ rejected line,
    lines = rejected ++ line :: rest
    ∧ value = resolve default line
    ∧ reject options validation value = Ret None
    ∧ Forall (λ l, ∃ complaint,
                reject options validation (resolve default l)
                = Ret (Some complaint)) rejected.
Proof.
  revert out. induction lines as [|l lines IH]; intros out Hrun; simpl in Hrun.
  - discriminate.
  - destruct (reject options validation (resolve default l))
      as [[complaint|]|e] eqn:Hr.
    + destruct (IH _ Hrun) as (rejected & line & -> & Hv & Hok & Hrej).
      exists (l :: rejected), line. repeat split; [done | done |].
      constructor; [by eexists | done].
    + injection Hrun as <- <- <-. exists [], l. repeat split; [done |].
      constructor.
    + discriminate.
Qed.

(** The default takes the place of the stripped line only when that is
    empty. *)
Lemma resolve_default (default line : string) :
  resolve default line ≠ strip line →
  strip line = EmptyString ∧ resolve default line = default
  ∧ default ≠ EmptyString.
Proof.
  unfold resolve. destruct (strip line) as [|c s]; simpl.
  - destruct default; simpl; [done |]. by intros _.
  - done.
Qed.

(** C2, as the specification states it, fails: with the pattern [[a-z]+]
    the collector returns [myapp-X], of which only the prefix [myapp]
    matches. *)
Lemma prefix_match_is_accepted :
  prompt_loop "App name" EmptyString [] (Some Samples.unanchored_pattern)
    ["myapp-X"] []
  = (Ret "myapp-X", [], [MPrompt "App name: "])
  ∧ re_fullmatch Samples.unanchored "myapp-X" = false.
Proof. split; reflexivity. Qed.

(** C2 (amended): the check is [re.match], which compiles the pattern and
    anchors it at the start of the value only.  A value is returned only if
    the pattern compiles and matches some prefix of the value; what follows
    that prefix is not checked.  With a pattern that compiles, a line whose
    value [re.match] fails on is complained about and the loop prompts
    again, and a line whose value is not empty, is within the options and
    has [re.match] succeed is accepted at once, the whole value being
    returned whether or not the match reaches its end. *)
Theorem validation_is_match_at_start
    (prompt default : string) (options : list string) (pat : pattern) :
  (∀ lines out value rest out',
     prompt_loop prompt default options (Some pat) lines out
     = (Ret value, rest, out') →
     ∃ compiled,
       p_compiled pat = Some compiled
       ∧ re_match compiled value = true
       ∧ ∃ pre post, value = pre +:+ post
                     ∧ (String.length pre, post) ∈ ends compiled (0, value))
  ∧ (∀ compiled line rest out,
       p_compiled pat = Some compiled →
       re_match compiled (resolve default line) = false →
       ∃ complaint,
         prompt_loop prompt default options (Some pat) (line :: rest) out
         = prompt_loop prompt default options (Some pat) rest
             ((out ++ [MPrompt (prompt +:+ ": ")]) ++ [complaint]))
  ∧ (∀ compiled line rest out,
       p_compiled pat = Some compiled →
       resolve default line ≠ EmptyString →
       (options ≠ [] → resolve default line ∈ options) →
       re_match compiled (resolve default line) = true →
       prompt_loop prompt default options (Some pat) (line :: rest) out
       = (Ret (resolve default line), rest,
          out ++ [MPrompt (prompt +:+ ": ")])).
Proof.
  split; [| split].
  - intros lines out value rest out' Hrun.
    apply prompt_loop_Ret in Hrun as (rejected & line & _ & _ & Hok & _).
    apply reject_None in Hok as (_ & _ & Hm).
    destruct (Hm pat eq_refl) as (compiled & Hc & Hmatch).
    exists compiled. split; [done |]. split; [done |].
    by apply re_match_prefix.
  - intros compiled line rest out Hc Hm.
    destruct (reject_no_match options _ _ _ Hc Hm) as [complaint Hr].
    exists complaint. by apply prompt_loop_complaint.
  - intros compiled line rest out Hc Hne Hopts Hm. simpl.
    by rewrite (reject_match options _ _ _ Hc Hne Hopts Hm).
Qed.

(** Under [^[a-z]+$], [My-App] is complained about and [myapp] is returned;
    under [[a-z]+], [myapp-X] is returned whole. *)
Lemma validation_is_match_at_start_witness :
  (∃ compiled,
     p_compiled Samples.anchored_pattern = Some compiled
     ∧ re_match compiled "myapp" = true
     ∧ ∃ pre post, "myapp" = pre +:+ post
                   ∧ (String.length pre, post) ∈ ends compiled (0, "myapp"))
  ∧ (∃ complaint,
       prompt_loop "App name" EmptyString [] (Some Samples.anchored_pattern)
         ["My-App"; "myapp"] []
       = prompt_loop "App name" EmptyString [] (Some Samples.anchored_pattern)
           ["myapp"] (([] ++ [MPrompt "App name: "]) ++ [complaint]))
  ∧ prompt_loop "App name" EmptyString [] (Some Samples.unanchored_pattern)
      ["myapp-X"] []
    = (Ret (resolve EmptyString "myapp-X"), [], [] ++ [MPrompt "App name: "]).
Proof.
  split; [| split].
  - apply (proj1 (validation_is_match_at_start "App name" EmptyString []
                    Samples.anchored_pattern)
             ["My-App"; "myapp"] [] "myapp" []
             [MPrompt "App name: "; MInvalidFormat "^[a-z]+$";
              MPrompt "App name: "]).
    reflexivity.
  - apply (proj1 (proj2 (validation_is_match_at_start "App name" EmptyString []
                           Samples.anchored_pattern))
             Samples.anchored "My-App" ["myapp"] []); reflexivity.
  - apply (proj2 (proj2 (validation_is_match_at_start "App name" EmptyString []
                           Samples.unanchored_pattern))
             Samples.unanchored "myapp-X" [] []); [reflexivity | | | reflexivity].
    + discriminate.
    + intros Hne. by destruct Hne.
Defined.

End Collector.

Module Collection.

Import Str Regex Engine Notions Samples MoreSamples MonadFacts Collector.

Lemma elem_of_dict_set (d : dict) (k v : string) (entry : string * string) :
  entry ∈ dict_set d k v → entry = (k, v) ∨ entry ∈ d.
Proof.
  induction d as [|[k' v'] d IH]; simpl.
  - intros Hin. apply list_elem_of_singleton in Hin. by left.
  - destruct (decide (k' = k)) as [->|Hne]; intros Hin.
    + apply elem_of_cons in Hin as [->|Hin]; [by left |].
      right. by right.
    + apply elem_of_cons in Hin as [->|Hin]; [right; left |].
      destruct (IH Hin) as [->|Hd]; [by left | right; by right].
Qed.

Section Collect.

Context {H : Host}.


Lemma collect_one_Ret (variables vars' : dict) (cfg : var_config) (w w' : World) :
  collect_one variables cfg w = (Ret vars', w') →
  ∃ name line,
    v_name cfg = Some name ∧ line ∈ stdin w
    ∧ stdin w' `suffix_of` stdin w
    ∧ vars' = dict_set variables name
                (resolve (get (v_default cfg) EmptyString) line)
    ∧ reject (get (v_options cfg) []) (v_validation cfg)
        (resolve (get (v_default cfg) EmptyString) line) = Ret None.
Proof.
  unfold collect_one. intros Hrun.
  apply bind_Ret_inv in Hrun as (name & w1 & Hname & Hrun).
  apply item_Ret_inv in Hname as [Hname ->].
  apply bind_Ret_inv in Hrun as (value & w2 & Hloop & Hrun).
  injection Hrun as <- <-.
  destruct (prompt_loop _ _ _ _ _ _) as [[r lines] out] eqn:Hp.
  injection Hloop as -> <-.
  apply prompt_loop_Ret in Hp as (rejected & line & Hlines & -> & Hok & _).
  exists name, line. simpl. rewrite Hlines.
  split; [done |]. split; [apply elem_of_app; right; left |].
  split; [| done].
  exists (rejected ++ [line]). by rewrite <- app_assoc.
Qed.

Lemma collect_loop_Ret (configs : list var_config) (lines : list string) :
  ∀ (todo : list var_config) (variables vars : dict) (w w' : World),
    collect_loop variables todo w = (Ret vars, w') →
    todo ⊆ configs →
    stdin w `suffix_of` lines →
    Forall (answers configs lines) variables →
    Forall (answers configs lines) vars.
Proof.
  induction todo as [|cfg todo IH]; intros variables vars w w' Hrun Hsub Hsuf Hvars.
  - by injection Hrun as <- <-.
  - simpl in Hrun.
    apply bind_Ret_inv in Hrun as (vars1 & w1 & Hone & Hrun).
    apply collect_one_Ret in Hone as (name & line & Hname & Hline & Hsuf1 & -> & Hok).
    apply (IH _ _ _ _ Hrun).
    + intros x Hx. apply Hsub. by right.
    + by etrans.
    + apply Forall_forall. intros entry Hentry.
      apply elem_of_dict_set in Hentry as [->|Hentry].
      * exists cfg, line.
        split; [apply Hsub; left |]. split; [done |].
        split; [| done].
        destruct Hsuf as [k ->]. apply elem_of_app. by right.
      * by eapply Forall_forall in Hvars.
Qed.

(** C5, as the specification states it, fails: under the pattern [[a-z]+]
    the collector returns [myapp-X], which the pattern does not match in
    full, and under an options list that is given and empty it returns
    [anything], which is in no list. *)
Lemma loose_values_are_returned :
  (collect_variables (H := Toy.toy) loose_template
     (Toy.world0 ["myapp-X"; "anything"] None)).1
  = Ret [("app", "myapp-X"); ("env", "anything")]
  ∧ re_fullmatch unanchored "myapp-X" = false
  ∧ "anything" ∉ ([] : list string).
Proof.
  split; [reflexivity |]. split; [reflexivity |]. intros Hin. inversion Hin.
Qed.

(** C5 (amended): every entry of a mapping that [collect_variables] returns
    comes from a variable of the template and a line of the input; its
    value is not empty, is one of the variable's options when the list of
    options is not empty, and passes [re.match] with the variable's pattern
    when there is one (the pattern compiles and matches at the start of the
    value); and its value is the stripped line itself unless that was
    empty, in which case it is the variable's default.  A line whose value
    is empty, outside a non-empty list of options, or fails [re.match], is
    complained about and followed by another prompt. *)
Theorem collected_values_are_valid (template : template) (w : World) :
  (∀ (w' : World) (vars : dict) (name value : string),
     collect_variables template w = (Ret vars, w') →
     (name, value) ∈ vars →
     ∃ cfg line,
       cfg ∈ get (t_variables template) [] ∧ v_name cfg = Some name
       ∧ line ∈ stdin w
       ∧ value ≠ EmptyString
       ∧ (∀ options, v_options cfg = Some options → options ≠ [] →
            value ∈ options)
       ∧ (∀ pat, v_validation cfg = Some pat →
            ∃ compiled, p_compiled pat = Some compiled
                        ∧ re_match compiled value = true)
       ∧ (value = strip line
          ∨ strip line = EmptyString ∧ v_default cfg = Some value))
  ∧ (∀ (prompt default : string) (options : list string)
       (validation : option pattern) (line : string) (rest : list string)
       (out : list message),
       resolve default line = EmptyString
       ∨ (options ≠ [] ∧ resolve default line ∉ options)
       ∨ (∃ pat compiled,
            validation = Some pat ∧ p_compiled pat = Some compiled
            ∧ re_match compiled (resolve default line) = false) →
       ∃ complaint,
         prompt_loop prompt default options validation (line :: rest) out
         = prompt_loop prompt default options validation rest
             ((out ++ [MPrompt (prompt +:+ ": ")]) ++ [complaint])).
Proof.
  split.
  - unfold collect_variables. intros w' vars name value Hrun Hin.
    destruct (t_variables template) as [configs|] eqn:Hconfigs.
    2: { injection Hrun as <- <-. inversion Hin. }
    apply bind_Ret_inv in Hrun as (tname & w1 & Hname & Hrun).
    apply item_Ret_inv in Hname as [_ ->].
    apply bind_Ret_inv in Hrun as ([] & w1 & [= <-] & Hrun).
    apply bind_Ret_inv in Hrun as ([] & w2 & [= <-] & Hrun).
    eapply (collect_loop_Ret configs (stdin w)) in Hrun;
      [| done | done | constructor].
    eapply Forall_forall in Hrun
      as (cfg & line & Hcfg & Hn & Hline & Hv & Hok); [| done].
    simpl in *. exists cfg, line.
    apply reject_None in Hok as (Hne & Hopts & Hpat).
    split; [done |]. split; [done |]. split; [done |]. split; [done |].
    split; [| split; [done |]].
    + intros options Ho Hnil. rewrite Ho in Hopts. by apply Hopts.
    + destruct (decide (value = strip line)) as [|Hd]; [by left | right].
      rewrite Hv in Hd. apply resolve_default in Hd as (Hs & Hr & Hdne).
      split; [done |]. rewrite Hv, Hr.
      destruct (v_default cfg); [done | by simpl in Hdne].
  - intros prompt default options validation line rest out Hbad.
    assert (∃ complaint,
              reject options validation (resolve default line)
              = Ret (Some complaint)) as [complaint Hr].
    { destruct Hbad as [He | [Ho | (pat & compiled & -> & Hc & Hm)]].
      - apply reject_violation. by left.
      - apply reject_violation. by right.
      - by eapply reject_no_match. }
    exists complaint. by apply prompt_loop_complaint.
Qed.

End Collect.

(** A run on the toy host: [stage] is not an option, the blank line takes
    the default [dev]; [My-App] fails the pattern, [myapp] passes. *)
Lemma collected_values_are_valid_witness :
  ∃ cfg line,
    cfg ∈ get (t_variables demo_template) [] ∧ v_name cfg = Some "env"
    ∧ line ∈ ["stage"; "  "; "My-App"; "myapp"]
    ∧ "dev" ≠ EmptyString
    ∧ (∀ options, v_options cfg = Some options → options ≠ [] → "dev" ∈ options)
    ∧ (∀ pat, v_validation cfg = Some pat →
         ∃ compiled, p_compiled pat = Some compiled
                     ∧ re_match compiled "dev" = true)
    ∧ ("dev" = strip line ∨ strip line = EmptyString ∧ v_default cfg = Some "dev").
Proof.
  apply (proj1 (collected_values_are_valid (H := Toy.toy) demo_template
                  (Toy.world0 ["stage"; "  "; "My-App"; "myapp"] None))
           (snd (collect_variables demo_template
                   (Toy.world0 ["stage"; "  "; "My-App"; "myapp"] None)))
           [("env", "dev"); ("app", "myapp")]).
  - vm_compute. reflexivity.
  - left.
Defined.

End Collection.

(* ===================================================================== *)
(** ** The template store *)
(* ===================================================================== *)

Module Store.

Import Engine Notions MoreNotions MoreSamples MonadFacts.

Section Sorting.

Context {A : Type} (key : A → string).


Lemma insert_by_perm (x : A) (l : list A) : insert_by key x l ≡ₚ x :: l.
Proof.
  induction l as [|y l IH]; simpl; [done |].
  destruct (String.leb (key x) (key y)); [done |].
  rewrite IH. apply Permutation_swap.
Qed.

Lemma sorted_perm (l : list A) : sorted key l ≡ₚ l.
Proof.
  induction l as [|x l IH]; simpl; [done |].
  by rewrite insert_by_perm, IH.
Qed.

Lemma insert_by_HdRel (x y : A) (l : list A) :
  (key_le key) y x → HdRel (key_le key) y l → HdRel (key_le key) y (insert_by key x l).
Proof.
  intros Hyx Hl. destruct l as [|z l]; simpl; [by constructor |].
  destruct (String.leb (key x) (key z)); constructor; [done |].
  by inversion Hl.
Qed.

Lemma insert_by_Sorted (x : A) (l : list A) :
  Sorted (key_le key) l → Sorted (key_le key) (insert_by key x l).
Proof.
  induction 1 as [|y l Hl IH Hhd]; simpl; [by repeat constructor |].
  destruct (String.leb (key x) (key y)) eqn:Hxy.
  - constructor; [by constructor |]. constructor.
    unfold key_le, String.le. by rewrite Hxy.
  - constructor; [done |]. apply insert_by_HdRel; [| done].
    destruct (total String.le (key x) (key y)) as [Hle|Hle]; [| done].
    unfold String.le in Hle. by rewrite Hxy in Hle.
Qed.

Lemma sorted_Sorted (l : list A) : Sorted (key_le key) (sorted key l).
Proof.
  induction l as [|x l IH]; simpl; [constructor | by apply insert_by_Sorted].
Qed.

Lemma sorted_StronglySorted (l : list A) : StronglySorted (key_le key) (sorted key l).
Proof.
  apply Sorted_StronglySorted; [| apply sorted_Sorted].
  intros x y z. unfold key_le. apply transitivity.
Qed.

End Sorting.

Section Listing.

Context {H : Host}.


(** The listing loop over files that are documents or are not JSON. *)
Lemma list_loop_clean (stems : list string) :
  ∀ (templates : list template) (w : World),
    existsb (λ stem, breaks (load_json stem (os w))) stems = false →
    list_loop templates stems w
    = (Ret (templates ++ parsable stems (os w)),
       MkWorld (stdin w) (stdout w ++ warnings stems (os w)) (os w)).
Proof.
  induction stems as [|stem rest IH]; intros templates w Hclean; simpl.
  - unfold ret. rewrite !app_nil_r. by destruct w.
  - simpl in Hclean. apply orb_false_iff in Hclean as [Hstem Hrest].
    unfold bind, list_one, bind, query, print, ret.
    destruct (load_json stem (os w)) as [t|detail| | |]; try done;
      rewrite IH by done; simpl; by rewrite <- ?app_assoc.
Qed.

(** The listing loop stops at the first file that is neither. *)
Lemma list_loop_broken (before : list string) :
  ∀ (templates : list template) (w : World) (stem : string) (rest : list string),
    existsb (λ stem, breaks (load_json stem (os w))) before = false →
    breaks (load_json stem (os w)) = true →
    list_loop templates (before ++ stem :: rest) w
    = (Raise (broken_by (load_json stem (os w))),
       MkWorld (stdin w) (stdout w ++ warnings before (os w)) (os w)).
Proof.
  induction before as [|stem0 before IH]; intros templates w stem rest Hclean Hstem;
    simpl.
  - unfold bind, list_one, bind, query, raise. rewrite app_nil_r.
    destruct (load_json stem (os w)); try done; by destruct w.
  - simpl in Hclean. apply orb_false_iff in Hclean as [Hstem0 Hrest].
    unfold bind, list_one, bind, query, print, ret.
    destruct (load_json stem0 (os w)) as [t|detail| | |]; try done;
      rewrite IH by done; simpl; by rewrite <- ?app_assoc.
Qed.

(** On a template directory without such a file the listing returns, and
    what it returns is [listed]. *)
Lemma list_templates_clean (w : World) :
  aborts (os w) = false →
  list_templates w
  = (Ret (listed (os w)),
     MkWorld (stdin w)
       (stdout w ++ (if templates_dir_exists (os w)
                     then warnings (glob_json (os w)) (os w) else []))
       (os w)).
Proof.
  unfold aborts, listed, list_templates, bind, query.
  destruct (templates_dir_exists (os w)); simpl.
  - intros Hclean. by rewrite list_loop_clean.
  - intros _. unfold ret. rewrite app_nil_r. by destruct w.
Qed.

(** C6 (what the code does instead): a file of the template directory that
    holds JSON other than an object, or that cannot be read or decoded,
    ends the listing with the exception it causes, which [list_templates]
    does not catch: nothing is returned, whatever templates stand before
    and after it in the directory. *)
Theorem broken_file_aborts_listing
    (w : World) (before : list string) (stem : string) (rest : list string) :
  templates_dir_exists (os w) = true →
  glob_json (os w) = before ++ stem :: rest →
  existsb (λ stem, breaks (load_json stem (os w))) before = false →
  breaks (load_json stem (os w)) = true →
  list_templates w
  = (Raise (broken_by (load_json stem (os w))),
     MkWorld (stdin w) (stdout w ++ warnings before (os w)) (os w)).
Proof.
  intros Hdir Hglob Hclean Hstem.
  unfold list_templates, bind, query. rewrite Hdir. simpl. rewrite Hglob.
  by rewrite list_loop_broken.
Qed.

End Listing.

(** [odd.json] holds [[]]: the listing ends in [TypeError], and [zeta] and
    [alpha] are not listed. *)
Lemma broken_file_aborts_listing_witness :
  list_templates (H := Toy.toy) (Toy.world0 [] mixed_store)
  = (Raise (broken_by NotADict),
     MkWorld (H := Toy.toy) [] ([] ++ [])
       (Toy.machine0 mixed_store : @host Toy.toy)).
Proof.
  apply (broken_file_aborts_listing (H := Toy.toy) (Toy.world0 [] mixed_store)
           ["web"] "odd" ["cli"]);
    reflexivity.
Defined.

(** A template directory with a corrupt file between two good ones: both
    good ones are listed, by name, and the corrupt one is warned about. *)
Example list_with_corrupt_file :
  list_templates (H := Toy.toy)
    (Toy.world0 []
       (Some [("web", Document (Toy.plain_template "zeta" []));
              ("bad", Malformed "Expecting value");
              ("cli", Document (Toy.plain_template "alpha" []))]))
  = (Ret [set_filename (Toy.plain_template "alpha" []) "cli";
          set_filename (Toy.plain_template "zeta" []) "web"],
     Toy.world [] [MInvalidTemplateFile "bad" "Expecting value"]
       (Toy.machine0
          (Some [("web", Document (Toy.plain_template "zeta" []));
                 ("bad", Malformed "Expecting value");
                 ("cli", Document (Toy.plain_template "alpha" []))]))).
Proof. reflexivity. Qed.

End Store.

(* ===================================================================== *)
(** ** The step loop *)
(* ===================================================================== *)

Module Loop.

Import Engine Notions MonadFacts.

Lemma for_until_cons {S A} (x : A) (rest : list A) (body : A → M S bool) (s : S) :
  for_until (x :: rest) body s
  = match body x s with
    | (Ret true, s1) => for_until rest body s1
    | (Ret false, s1) => (Ret false, s1)
    | (Raise e, s1) => (Raise e, s1)
    end.
Proof.
  simpl. unfold bind. destruct (body x s) as [[[|]|e] s1]; reflexivity.
Qed.

Section Body.

Context {H : Host}.


Lemma after_after (w : World) (out1 out2 : list message) (h1 h2 : host) :
  after (after w out1 h1) out2 h2 = after w (out1 ++ out2) h2.
Proof. unfold after. simpl. by rewrite <- app_assoc. Qed.

(** One round of the step loop: the header, the step, and the failure
    line when the step returns [false]. *)
Lemma step_body_run (variables : dict) (target_dir : string) (i : nat)
    (step : step) (w : World) :
  step_body variables target_dir (i, step) w
  = match execute_step step variables target_dir
            (after w [MStepHeader i (s_description step)] (os w)) with
    | (Ret true, w1) => (Ret true, w1)
    | (Ret false, w1) => (Ret false, after w1 [MFailedAtStep i] (os w1))
    | (Raise e, w1) => (Raise e, w1)
    end.
Proof.
  unfold step_body. unfold bind at 1. unfold print at 1. unfold bind at 1.
  fold (after w [MStepHeader i (s_description step)] (os w)).
  destruct (execute_step _ _ _ _) as [[[|]|e] w1]; reflexivity.
Qed.

End Body.

End Loop.

(* ===================================================================== *)
(** ** The step executor *)
(* ===================================================================== *)

Module Steps.

Import Str StrFacts Engine Notions MonadFacts Substitution Loop.

Lemma substitute_empty (variables : dict) :
  substitute_variables EmptyString variables = EmptyString.
Proof.
  induction variables as [|[name value] rest IH]; [done |].
  rewrite substitute_cons, replace_empty by apply token_nonempty. apply IH.
Qed.

Section Execute.

Context {H : Host}.


(** C8: a command step never raises.  It returns [true] exactly when the
    process that [subprocess.run] started exits with status zero; on a
    non-zero status, on the timeout and on an exception from the launch it
    returns [false], having printed the diagnostics of that outcome after
    the echo of the step. *)
Theorem command_step_succeeds_iff_exit_zero
    (step : step) (variables : dict) (current_dir text : string)
    (w : World) (outcome : run_outcome) (h' : host) :
  get (s_type step) "command" = "command" →
  s_command step = Some text →
  subprocess_run (substitute_variables text variables) (Some current_dir)
    (Some 300) (os w) = (outcome, h') →
  ∃ (ok : bool) (out : list message),
    execute_step step variables current_dir w = (Ret ok, after w (echo step :: out) h')
    ∧ (ok = true ↔ ∃ stdout stderr, outcome = Completed 0 stdout stderr)
    ∧ (ok = false →
       out = diagnostics (substitute_variables text variables) outcome).
Proof.
  intros Htype Hcommand Hrun.
  unfold execute_step. rewrite Htype.
  destruct (decide ("command" = "command")) as [_|]; [| done].
  unfold run_command_step. rewrite Hcommand.
  unfold bind, print, item, ret, call, after, echo. simpl. rewrite Hrun. simpl.
  destruct outcome as [returncode out err| |detail]; simpl.
  - destruct (decide (returncode ≠ 0%Z)) as [Hne|Heq]; simpl.
    + eexists false, _. rewrite <- !List.app_assoc. simpl.
      split; [reflexivity |]. split; [| done].
      split; [done |]. intros (? & ? & [= -> _ _]). done.
    + assert (returncode = 0%Z) as -> by (by destruct (decide (returncode = 0%Z))).
      destruct (truthy (strip out)); simpl.
      * eexists true, _. rewrite <- !List.app_assoc. simpl.
        split; [reflexivity |]. split; [| done]. split; eauto.
      * exists true, []. split; [reflexivity |]. split; [| done].
        split; eauto.
  - eexists false, _. rewrite <- !List.app_assoc. simpl.
    split; [reflexivity |]. split; [| done].
    split; [done |]. intros (? & ? & [=]).
  - eexists false, _. rewrite <- !List.app_assoc. simpl.
    split; [reflexivity |]. split; [| done].
    split; [done |]. intros (? & ? & [=]).
Qed.

(** C9: a step whose type is none of [command], [directory] and [file]
    prints the echo and a warning, leaves the machine and the input as
    they are, and returns [true]; the step loop goes on with the steps
    after it. *)
Theorem unknown_step_is_skipped
    (step : step) (variables : dict) (current_dir step_type : string)
    (w : World) :
  s_type step = Some step_type →
  step_type ∉ ["command"; "directory"; "file"] →
  execute_step step variables current_dir w
  = (Ret true, after w [echo step; MUnknownStepType step_type] (os w))
  ∧ ∀ (i : nat) (rest : list Engine.step),
      for_until (enumerate i (step :: rest)) (step_body variables current_dir) w
      = for_until (enumerate (S i) rest) (step_body variables current_dir)
          (after w [MStepHeader i (s_description step); echo step;
                    MUnknownStepType step_type] (os w)).
Proof.
  intros Htype Hunknown.
  assert (Hrun : ∀ w0, execute_step step variables current_dir w0
          = (Ret true, after w0 [echo step; MUnknownStepType step_type] (os w0))).
  { intros w0. unfold execute_step. rewrite Htype. simpl.
    destruct (decide (step_type = "command")) as [->|_];
      [exfalso; apply Hunknown; repeat constructor |].
    destruct (decide (step_type = "directory")) as [->|_];
      [exfalso; apply Hunknown; repeat constructor |].
    destruct (decide (step_type = "file")) as [->|_];
      [exfalso; apply Hunknown; repeat constructor |].
    unfold bind, print, ret, after, echo. simpl.
    by rewrite <- List.app_assoc. }
  split; [apply Hrun |].
  intros i rest. cbn [enumerate].
  rewrite for_until_cons, step_body_run, Hrun, after_after. reflexivity.
Qed.

(** C10: a file step without a [content] key runs as the same step with
    the empty string for content.  It does not raise; the parent
    directory of the target is created with its ancestors, the target is
    written with empty content, and when neither call fails the step
    returns [true]. *)
Theorem file_step_without_content
    (step : step) (variables : dict) (current_dir path : string) (w : World) :
  s_type step = Some "file" →
  s_path step = Some path →
  s_content step = None →
  let full_path := resolve_path current_dir (substitute_variables path variables) in
  execute_step step variables current_dir w
  = execute_step
      (Step (s_type step) (s_description step) (s_command step) (s_path step)
         (Some EmptyString)) variables current_dir w
  ∧ (∃ ok w', execute_step step variables current_dir w = (Ret ok, w'))
  ∧ ∀ h1 h2,
      mkdir_parents (parent full_path) (os w) = (None, h1) →
      write_text full_path EmptyString h1 = (None, h2) →
      execute_step step variables current_dir w
      = (Ret true, after w [echo step; MCreatedFile full_path] h2).
Proof.
  intros Htype Hpath Hcontent full_path.
  split; [| split].
  - unfold execute_step, run_file_step. simpl. by rewrite Hcontent.
  - unfold execute_step, run_file_step. rewrite Htype, Hpath, Hcontent. simpl.
    unfold bind, print, item, ret, call. simpl.
    destruct (mkdir_parents _ _) as [[d|] h1]; simpl; [eauto |].
    destruct (write_text _ _ _) as [[d|] h2]; simpl; eauto.
  - intros h1 h2 Hmkdir Hwrite.
    unfold execute_step, run_file_step. rewrite Htype, Hpath, Hcontent. simpl.
    unfold bind, print, item, ret, call. simpl.
    fold full_path. rewrite Hmkdir. simpl.
    rewrite substitute_empty, Hwrite. simpl.
    unfold after, echo. by rewrite <- List.app_assoc.
Qed.

End Execute.

End Steps.

Module StepExamples.

Import Str Engine Notions Samples Loop Steps.

(** A command that exits with status 1 on the toy host. *)
Lemma command_step_succeeds_iff_exit_zero_witness :
  ∃ (ok : bool) (out : list message),
    execute_step (H := Toy.toy) (Toy.command_step "exit {{code}}")
      [("code", "1")] "/work" (Toy.world0 [] None)
    = (Ret ok,
       after (Toy.world0 [] None)
         (echo (Toy.command_step "exit {{code}}") :: out)
         (Toy.remember "exit 1" (Toy.machine0 None)))
    ∧ (ok = true ↔
       ∃ stdout stderr, Completed 1 EmptyString "failed" = Completed 0 stdout stderr)
    ∧ (ok = false →
       out = diagnostics (substitute_variables "exit {{code}}" [("code", "1")])
               (Completed 1 EmptyString "failed")).
Proof.
  apply (command_step_succeeds_iff_exit_zero (H := Toy.toy)
           (Toy.command_step "exit {{code}}") [("code", "1")] "/work"
           "exit {{code}}" (Toy.world0 [] None)
           (Completed 1 EmptyString "failed")
           (Toy.remember "exit 1" (Toy.machine0 None)));
    reflexivity.
Defined.


Lemma unknown_step_is_skipped_witness :
  execute_step (H := Toy.toy) download_step [] "/work" (Toy.world0 [] None)
  = (Ret true,
     after (Toy.world0 [] None)
       [echo download_step; MUnknownStepType "download"]
       (Toy.machine0 None)).
Proof.
  apply (unknown_step_is_skipped (H := Toy.toy) download_step [] "/work"
           "download" (Toy.world0 [] None)).
  - reflexivity.
  - intros Hin. repeat (apply elem_of_cons in Hin as [Hin|Hin]; [discriminate |]).
    inversion Hin.
Defined.

(** A file step with no content on the toy host: [/work/src] is created and
    [/work/src/demo.txt] is written, empty. *)
Lemma file_step_without_content_witness :
  execute_step (H := Toy.toy) (Toy.file_step "src/{{app}}.txt" None)
    [("app", "demo")] "/work" (Toy.world0 [] None)
  = (Ret true,
     after (Toy.world0 [] None)
       [echo (Toy.file_step "src/{{app}}.txt" None);
        MCreatedFile "/work/src/demo.txt"]
       (Toy.Machine "/work" None ["/work/src"; "/work"]
          [("/work/src/demo.txt", EmptyString)] [])).
Proof.
  apply (file_step_without_content (H := Toy.toy)
           (Toy.file_step "src/{{app}}.txt" None) [("app", "demo")] "/work"
           "src/{{app}}.txt" (Toy.world0 [] None) eq_refl eq_refl eq_refl)
    with (h1 := Toy.Machine "/work" None ["/work/src"; "/work"] [] []);
    reflexivity.
Defined.

End StepExamples.

(* ===================================================================== *)
(** ** Stepping through a run *)
(* ===================================================================== *)

Module RunFacts.

Import Engine Notions MoreNotions MonadFacts Loop.

Section Run.

Context {H : Host}.

Lemma bind_ret_l {A B} (a : A) (k : A → M World B) (w : World) :
  bind (ret a) k w = k a w.
Proof. reflexivity. Qed.

Lemma bind_print {B} (m : message) (k : unit → M World B) (w : World) :
  bind (print m) k w = k () (after w [m] (os w)).
Proof. reflexivity. Qed.

Lemma bind_query {A B} (f : host → A) (k : A → M World B) (w : World) :
  bind (query f) k w = k (f (os w)) w.
Proof. reflexivity. Qed.

Lemma bind_assoc {A B C} (m : M World A) (k1 : A → M World B)
    (k2 : B → M World C) (w : World) :
  bind (bind m k1) k2 w = bind m (λ a, bind (k1 a) k2) w.
Proof. unfold bind. by destruct (m w) as [[a|e] w1]. Qed.

Lemma try_except_Ret_inv {A} (m : M World A) (handler : exn → option (M World A))
    (w w' : World) (a : A) :
  try_except m handler w = (Ret a, w') →
  m w = (Ret a, w')
  ∨ ∃ e w1 h, m w = (Raise e, w1) ∧ handler e = Some h ∧ h w1 = (Ret a, w').
Proof.
  unfold try_except. destruct (m w) as [[a1|e] w1]; [by left |].
  destruct (handler e) as [h|] eqn:He; [| discriminate].
  intros Hh. right. by exists e, w1, h.
Qed.

(** What the first phase of [execute_template] does with a template file
    that is there and parses. *)
Lemma load_template_Document (template_name : string) (t : template) (w : World) :
  template_file_exists template_name (os w) = true →
  load_json template_name (os w) = Document t →
  load_template template_name w = (Ret (JDict t), w).
Proof.
  intros Hexists Hload. unfold load_template.
  rewrite bind_query, Hexists. simpl. by rewrite bind_query, Hload.
Qed.

Lemma load_template_Ret_inv (template_name : string) (value : json_value)
    (w w' : World) :
  load_template template_name w = (Ret value, w') →
  w' = w ∧ template_file_exists template_name (os w) = true
  ∧ match value with
    | JDict t => load_json template_name (os w) = Document t
    | JOther => load_json template_name (os w) = NotADict
    end.
Proof.
  unfold load_template. rewrite bind_query.
  destruct (template_file_exists template_name (os w)); simpl; [| discriminate].
  rewrite bind_query.
  destruct (load_json template_name (os w)); try discriminate;
    by intros [= <- <-].
Qed.

(** With the file there and parsing, the guarded load hands the document
    on. *)
Lemma try_load_Document {A} (template_name : string) (t : template) (w : World)
    (handler : exn → option (M World (option json_value)))
    (k : option json_value → M World A) :
  template_file_exists template_name (os w) = true →
  load_json template_name (os w) = Document t →
  bind (try_except (let* t := load_template template_name in ret (Some t))
          handler) k w
  = k (Some (JDict t)) w.
Proof.
  intros Hexists Hload. unfold bind at 1. unfold try_except.
  by rewrite (bind_Ret _ _ _ _ _ (load_template_Document _ _ _ Hexists Hload)).
Qed.

Lemma for_until_true_in_order (variables : dict) (target_dir : string)
    (steps : list step) :
  ∀ i w w',
    for_until (enumerate i steps) (step_body variables target_dir) w
    = (Ret true, w') →
    in_order variables target_dir i steps w w'.
Proof.
  induction steps as [|step rest IH]; intros i w w' Hrun; cbn [enumerate] in Hrun.
  - injection Hrun as <-. constructor.
  - rewrite for_until_cons, step_body_run in Hrun.
    destruct (execute_step _ _ _ _) as [[[|]|e] w1] eqn:Hstep; [| done | done].
    econstructor; [exact Hstep | by apply IH].
Qed.

(** The post-install loop issues every command, whatever came of the one
    before. *)
Lemma post_install_run (variables : dict) (commands : list string) :
  ∀ w,
    for_each commands (λ command,
      print (MPostInstallCommand (substitute_variables command variables)) >>
      call (λ h, ((), os_system (substitute_variables command variables) h))) w
    = (Ret (),
       after w
         (map (λ command,
                 MPostInstallCommand (substitute_variables command variables))
            commands)
         (after_post_install variables commands (os w))).
Proof.
  induction commands as [|command rest IH]; intros w.
  - unfold after. simpl. rewrite app_nil_r. by destruct w.
  - cbn [for_each]. rewrite bind_assoc, bind_print.
    unfold bind at 1. unfold call at 1. cbn [os after].
    rewrite IH. unfold after. simpl. by rewrite <- app_assoc.
Qed.

(** The loop that prints the next steps. *)
Lemma next_steps_run (next_steps : list string) :
  ∀ w, for_each next_steps (λ text, print (MNextStep text)) w
       = (Ret (), after w (map MNextStep next_steps) (os w)).
Proof.
  induction next_steps as [|text rest IH]; intros w.
  - unfold after. simpl. rewrite app_nil_r. by destruct w.
  - cbn [for_each]. rewrite bind_print, IH, after_after. reflexivity.
Qed.

(** The first phase of [execute_template], by what the template file is. *)
Lemma try_load_cases (template_name : string) (w : World) :
  try_except
    (let* t := load_template template_name in ret (Some t))
    (λ e, match e with
          | FileNotFoundError _ => Some (print (MError e) >> ret None)
          | _ => None
          end) w
  = if template_file_exists template_name (os w) then
      match load_json template_name (os w) with
      | Document t => (Ret (Some (JDict t)), w)
      | NotADict => (Ret (Some JOther), w)
      | Malformed detail => (Raise (JSONDecodeError detail), w)
      | Unreadable detail => (Raise (OSError detail), w)
      | Undecodable detail => (Raise (UnicodeDecodeError detail), w)
      end
    else (Ret None, after w [MError (FileNotFoundError template_name)] (os w)).
Proof.
  unfold try_except, load_template, bind, query.
  destruct (template_file_exists template_name (os w)); simpl; [| done].
  by destruct (load_json template_name (os w)).
Qed.

Lemma bind_Raise_inv {A B} (m : M World A) (k : A → M World B)
    (w w' : World) (e : exn) :
  bind m k w = (Raise e, w') →
  m w = (Raise e, w') ∨ ∃ a w1, m w = (Ret a, w1) ∧ k a w1 = (Raise e, w').
Proof.
  unfold bind. destruct (m w) as [[a|e1] w1]; intros Hk.
  - right. by exists a, w1.
  - left. by injection Hk as -> ->.
Qed.

(** The first element a boolean test holds of. *)
Lemma existsb_first {A} (f : A → bool) (l : list A) :
  existsb f l = true →
  ∃ before x rest, l = before ++ x :: rest
                   ∧ existsb f before = false ∧ f x = true.
Proof.
  induction l as [|y l IH]; [done |]. simpl.
  destruct (f y) eqn:Hy; simpl.
  - intros _. by exists [], y, l.
  - intros Hl. destruct (IH Hl) as (before & x & rest & -> & Hbefore & Hx).
    exists (y :: before), x, rest. simpl. by rewrite Hy.
Qed.

(** The post-install phase: every command is issued, and the phase
    returns. *)
Lemma post_install_phase (variables : dict) (t : template) (w : World) :
  match t_postInstall t with
  | Some commands =>
      print MRunningPostInstall >>
      for_each commands (λ command,
        print (MPostInstallCommand (substitute_variables command variables)) >>
        call (λ h, ((), os_system (substitute_variables command variables) h)))
  | None => ret ()
  end w
  = (Ret (),
     after w
       match t_postInstall t with
       | Some commands =>
           MRunningPostInstall
           :: map (λ command,
                     MPostInstallCommand
                       (substitute_variables command variables))
                commands
       | None => []
       end
       (after_post_install variables (get (t_postInstall t) []) (os w))).
Proof.
  destruct (t_postInstall t) as [commands|]; simpl.
  - rewrite bind_print, post_install_run, after_after. reflexivity.
  - unfold after, ret. rewrite app_nil_r. by destruct w.
Qed.

(** The next steps are printed as they stand in the document. *)
Lemma next_steps_phase (t : template) (w : World) :
  match t_documentation t with
  | Some (Documentation (Some next_steps)) =>
      print MSuggestedNextSteps >>
      for_each next_steps (λ text, print (MNextStep text))
  | _ => ret ()
  end w
  = (Ret (),
     after w
       match t_documentation t with
       | Some (Documentation (Some next_steps)) =>
           MSuggestedNextSteps :: map MNextStep next_steps
       | _ => []
       end (os w)).
Proof.
  destruct (t_documentation t) as [[[next_steps|]]|]; simpl.
  - rewrite bind_print, next_steps_run, after_after. reflexivity.
  - unfold after, ret. rewrite app_nil_r. by destruct w.
  - unfold after, ret. rewrite app_nil_r. by destruct w.
Qed.

(** A prerequisite phase that lets the run go on has passed. *)
Lemma prerequisites_phase_true (t : template) (w1 w2 : World) :
  match t_prerequisites t with
  | Some prereqs =>
      print MCheckingPrerequisites >>
      let* ok := for_until prereqs prerequisite_body in
      if ok then print MPrerequisitesSatisfied >> ret true else ret false
  | None => ret true
  end w1 = (Ret true, w2) →
  prerequisites_pass t w1 w2.
Proof.
  unfold prerequisites_pass. destruct (t_prerequisites t) as [prereqs|].
  - rewrite bind_print. intros Hrun.
    apply bind_Ret_inv in Hrun as (ok & w' & Hloop & Hrun).
    destruct ok; [| discriminate].
    rewrite bind_print in Hrun. injection Hrun as <-. by exists w'.
  - by intros [= <-].
Qed.

End Run.

End RunFacts.

(* ===================================================================== *)
(** ** The template runner *)
(* ===================================================================== *)

Module Runner.

Import Engine Notions MoreNotions MonadFacts Loop RunFacts.

Section Run.

Context {H : Host}.


Lemma enumerate_app {A} (i : nat) (l1 l2 : list A) :
  enumerate i (l1 ++ l2) = enumerate i l1 ++ enumerate (i + length l1) l2.
Proof.
  revert i. induction l1 as [|x l1 IH]; intros i; simpl.
  - by rewrite Nat.add_0_r.
  - rewrite IH. do 3 f_equal. lia.
Qed.

(** The step loop: steps that all succeed are executed in the declared
    order, and the loop stops at the step after them when that one returns
    [false]. *)
Lemma loop_fail_fast
    (variables : dict) (target_dir : string)
    (i : nat) (before : list step) (w w1 : World) :
  in_order variables target_dir i before w w1 →
  for_until (enumerate i before) (step_body variables target_dir) w
  = (Ret true, w1)
  ∧ ∀ (failing : step) (rest : list step) (w2 : World),
      execute_step failing variables target_dir
        (after w1 [MStepHeader (i + length before) (s_description failing)]
           (os w1))
      = (Ret false, w2) →
      for_until (enumerate i (before ++ failing :: rest))
        (step_body variables target_dir) w
      = (Ret false, after w2 [MFailedAtStep (i + length before)] (os w2)).
Proof.
  induction 1 as [i w | i step rest0 w w1 w2 Hstep Hrest IH].
  - split; [reflexivity |]. intros failing rest w2 Hfail.
    cbn [app enumerate length] in *. rewrite Nat.add_0_r in *.
    by rewrite for_until_cons, step_body_run, Hfail.
  - destruct IH as [IHok IHfail]. split.
    + cbn [enumerate]. by rewrite for_until_cons, step_body_run, Hstep.
    + intros failing rest w3 Hfail.
      cbn [app enumerate]. rewrite for_until_cons, step_body_run, Hstep.
      cbn [length] in *.
      replace (i + S (length rest0)) with (S i + length rest0) in * by lia.
      by apply IHfail.
Qed.

(** C4: in a run of [execute_template] that has loaded the template,
    collected the variables and passed the prerequisites, the steps of the
    template are executed in the declared order, numbered from 1, each on
    the world the one before it left.  When the steps [before] have
    returned [true] and the next one returns [false], the run ends there:
    [execute_template] returns [false] in the world that step left, with
    the failure line added; no later step and no post-install command is
    run, and what the earlier steps did is still in that world.  When all
    the steps have returned [true], the run goes on to the post-install
    commands and returns [true]. *)
Theorem steps_in_order_fail_fast
    (template_name name : string) (target_dir : option string) (t : template)
    (variables : dict) (before : list step) (w w1 w2 w3 : World) :
  template_file_exists template_name (os w) = true →
  load_json template_name (os w) = Document t →
  collect_variables t w = (Ret variables, w1) →
  t_name t = Some name →
  prerequisites_pass t (after w1 [MInitializing name] (os w1)) w2 →
  in_order variables (default (getcwd (os w1)) target_dir) 1 before
    (after w2 [MExecutingSteps] (os w2)) w3 →
  (∀ (failing : step) (rest : list step) (w4 : World),
     get (t_steps t) [] = before ++ failing :: rest →
     execute_step failing variables (default (getcwd (os w1)) target_dir)
       (after w3 [MStepHeader (1 + length before) (s_description failing)]
          (os w3))
     = (Ret false, w4) →
     execute_template template_name target_dir w
     = (Ret false, after w4 [MFailedAtStep (1 + length before)] (os w4)))
  ∧ (get (t_steps t) [] = before →
     execute_template template_name target_dir w
     = (Ret true,
        after w3 (closing_lines variables t ++ [MSuccess name])
          (after_post_install variables (get (t_postInstall t) []) (os w3)))).
Proof.
  intros Hexists Hload Hcollect Hname Hready Horder.
  set (dir := default (getcwd (os w1)) target_dir) in *.
  destruct (loop_fail_fast _ _ _ _ _ _ Horder) as [Hall Hfail].
  assert (Hdir : ∀ (A : Type) (k : string → M World A),
            bind (match target_dir with
                  | Some d => ret d
                  | None => query getcwd
                  end) k w1 = k dir w1).
  { intros A k. subst dir. by destruct target_dir. }
  assert (Hpass : ∀ (A : Type) (k : bool → M World A),
            bind (match t_prerequisites t with
                  | Some prereqs =>
                      print MCheckingPrerequisites >>
                      let* ok := for_until prereqs prerequisite_body in
                      if ok then print MPrerequisitesSatisfied >> ret true
                      else ret false
                  | None => ret true
                  end) k (after w1 [MInitializing name] (os w1))
            = k true w2).
  { intros A k. unfold prerequisites_pass in Hready.
    destruct (t_prerequisites t) as [prereqs|].
    - destruct Hready as (w' & Hloop & ->).
      rewrite bind_assoc, bind_print, bind_assoc.
      rewrite (bind_Ret _ _ _ _ _ Hloop). cbv beta iota.
      by rewrite bind_assoc, bind_print, bind_ret_l.
    - subst w2. by rewrite bind_ret_l. }
  split; [intros failing rest w4 Hsteps Hstep | intros Hsteps];
    unfold execute_template;
    rewrite (try_load_Document _ _ _ _ _ Hexists Hload);
    unfold as_dict; rewrite bind_ret_l, (bind_Ret _ _ _ _ _ Hcollect);
    rewrite Hdir, Hname; unfold item at 1; rewrite bind_ret_l, bind_print;
    rewrite Hpass; cbn [negb]; rewrite bind_print, Hsteps.
  - rewrite (bind_Ret _ _ _ _ _ (Hfail _ _ _ Hstep)). reflexivity.
  - rewrite (bind_Ret _ _ _ _ _ Hall). cbn [negb].
    assert (Hpost :
      match t_postInstall t with
      | Some commands =>
          print MRunningPostInstall >>
          for_each commands (λ command,
            print (MPostInstallCommand
                     (substitute_variables command variables)) >>
            call (λ h, ((), os_system
                              (substitute_variables command variables) h)))
      | None => ret ()
      end w3
      = (Ret (),
         after w3
           match t_postInstall t with
           | Some commands =>
               MRunningPostInstall
               :: map (λ command,
                         MPostInstallCommand
                           (substitute_variables command variables))
                    commands
           | None => []
           end
           (after_post_install variables (get (t_postInstall t) []) (os w3)))).
    { destruct (t_postInstall t) as [commands|]; simpl.
      - rewrite bind_print, post_install_run, after_after. reflexivity.
      - unfold after, ret. rewrite app_nil_r. by destruct w3. }
    rewrite (bind_Ret _ _ _ _ _ Hpost).
    assert (Hnext : ∀ w0,
      match t_documentation t with
      | Some (Documentation (Some next_steps)) =>
          print MSuggestedNextSteps >>
          for_each next_steps (λ text, print (MNextStep text))
      | _ => ret ()
      end w0
      = (Ret (),
         after w0
           match t_documentation t with
           | Some (Documentation (Some next_steps)) =>
               MSuggestedNextSteps :: map MNextStep next_steps
           | _ => []
           end (os w0))).
    { intros w0. destruct (t_documentation t) as [[[next_steps|]]|]; simpl.
      - rewrite bind_print, next_steps_run, after_after. reflexivity.
      - unfold after, ret. rewrite app_nil_r. by destruct w0.
      - unfold after, ret. rewrite app_nil_r. by destruct w0. }
    rewrite (bind_Ret _ _ _ _ _ (Hnext _)).
    unfold item. rewrite bind_ret_l, bind_print.
    unfold ret, closing_lines. rewrite !after_after. cbn [os after].
    by rewrite <- !app_assoc.
Qed.

(** The exit status of [init] is that of [main] returning or not; the
    value [execute_template] returns has no part in it. *)
Lemma main_init (prog template_name : string) (more : list string) (w : World) :
  main (prog :: "init" :: template_name :: more) w
  = (execute_template template_name None >> ret ()) w.
Proof.
  unfold main.
  destruct (decide ("init" = "list")) as [|_]; [done |].
  destruct (decide ("init" = "init")) as [_|]; [done | done].
Qed.

Lemma exit_status_init
    (prog template_name : string) (more : list string) (w : World) :
  exit_status (prog :: "init" :: template_name :: more) w
  = match execute_template template_name None w with
    | (Ret _, w') => (0, w')
    | (Raise _, w') => (1, w')
    end.
Proof.
  unfold exit_status. rewrite main_init. unfold bind.
  destruct (execute_template _ _ _) as [[b|e] w']; reflexivity.
Qed.

(** C3 (amended): [init] with a template name exits with status 0 whenever
    [execute_template] returns, with [true] as with [false]: the value is
    dropped by [main], and success or failure shows in what is printed
    only.  The status is 1 when an exception leaves [execute_template]. *)
Theorem init_exit_status
    (prog template_name : string) (more : list string) (w : World) :
  (∀ (ok : bool) (w' : World),
     execute_template template_name None w = (Ret ok, w') →
     exit_status (prog :: "init" :: template_name :: more) w = (0, w'))
  ∧ (∀ (e : exn) (w' : World),
       execute_template template_name None w = (Raise e, w') →
       exit_status (prog :: "init" :: template_name :: more) w = (1, w')).
Proof.
  split; intros ? w' Hrun; by rewrite exit_status_init, Hrun.
Qed.

(** C7 (what the code does instead): a requested template whose file
    exists and does not parse makes [load_template] raise [JSONDecodeError],
    which is not among the exceptions [execute_template] catches.  It
    leaves [execute_template] and [main] with nothing printed, and the
    process ends with status 1; [list_templates] does catch it. *)
Theorem malformed_template_escapes
    (prog template_name detail : string) (more : list string) (w : World) :
  template_file_exists template_name (os w) = true →
  load_json template_name (os w) = Malformed detail →
  execute_template template_name None w = (Raise (JSONDecodeError detail), w)
  ∧ exit_status (prog :: "init" :: template_name :: more) w = (1, w).
Proof.
  intros Hexists Hload.
  assert (Hrun : execute_template template_name None w
                 = (Raise (JSONDecodeError detail), w)).
  { unfold execute_template, try_except, load_template, bind, query, raise.
    simpl. rewrite Hexists. simpl. by rewrite Hload. }
  split; [done |]. by rewrite exit_status_init, Hrun.
Qed.

End Run.

End Runner.

Module RunnerExamples.

Import Engine Notions MoreNotions Samples Loop Runner.


(** The run of [scaffold]: the directory is made, the command fails, the
    run returns [false], and there is no file. *)
Lemma steps_in_order_fail_fast_witness :
  execute_template (H := Toy.toy) "scaffold" None (Toy.world0 [] store)
  = (Ret false,
     after
       (Toy.world []
          [MInitializing "scaffold"; MExecutingSteps;
           MStepHeader 1 None; MStep "Executing step";
           MCreatedDirectory "/work/src"; MStepHeader 2 None;
           MStep "Executing step"; MCommandFailed "exit 1";
           MCommandStderr "failed"]
          machine_failed)
       [MFailedAtStep (1 + length [Toy.directory_step "src"])]
       machine_failed).
Proof.
  assert (Horder :
    in_order (H := Toy.toy) [] "/work" 1 [Toy.directory_step "src"]
      (after (Toy.world [] [MInitializing "scaffold"] (Toy.machine0 store))
         [MExecutingSteps] (Toy.machine0 store))
      (Toy.world []
         [MInitializing "scaffold"; MExecutingSteps;
          MStepHeader 1 None; MStep "Executing step";
          MCreatedDirectory "/work/src"]
         machine_dir)).
  { apply (in_order_cons [] "/work" 1 _ [] _
             (Toy.world []
                [MInitializing "scaffold"; MExecutingSteps;
                 MStepHeader 1 None; MStep "Executing step";
                 MCreatedDirectory "/work/src"]
                machine_dir));
      [reflexivity | apply in_order_nil]. }
  apply (proj1 (steps_in_order_fail_fast (H := Toy.toy) "scaffold" "scaffold"
                  None scaffold [] [Toy.directory_step "src"]
                  (Toy.world0 [] store) (Toy.world0 [] store)
                  (Toy.world [] [MInitializing "scaffold"] (Toy.machine0 store))
                  _ eq_refl eq_refl eq_refl eq_refl eq_refl Horder)
           (Toy.command_step "exit 1")
           [Toy.file_step "src/main.txt" (Some "hello")]);
    reflexivity.
Defined.

(** The same through [execute_template]: the run returns [false], the
    directory is there, the command has been run, and there is no file. *)
Example scaffold_run :
  execute_template (H := Toy.toy) "scaffold" None (Toy.world0 [] store)
  = (Ret false,
     Toy.world []
       [MInitializing "scaffold"; MExecutingSteps;
        MStepHeader 1 None; MStep "Executing step";
        MCreatedDirectory "/work/src"; MStepHeader 2 None;
        MStep "Executing step"; MCommandFailed "exit 1";
        MCommandStderr "failed"; MFailedAtStep 2]
       machine_failed).
Proof. reflexivity. Qed.

(** C3, as the specification states it, fails: a run that aborts because
    the template is not found, and one that aborts at a failing step, both
    leave the process with exit status 0. *)
Lemma aborted_init_exits_zero :
  (execute_template (H := Toy.toy) "missing" None (Toy.world0 [] store)).1
  = Ret false
  ∧ (exit_status (H := Toy.toy) ["template-engine.py"; "init"; "missing"]
       (Toy.world0 [] store)).1 = 0
  ∧ (execute_template (H := Toy.toy) "scaffold" None (Toy.world0 [] store)).1
    = Ret false
  ∧ (exit_status (H := Toy.toy) ["template-engine.py"; "init"; "scaffold"]
       (Toy.world0 [] store)).1 = 0.
Proof. repeat split. Qed.

Lemma init_exit_status_witness :
  exit_status (H := Toy.toy) ["template-engine.py"; "init"; "scaffold"]
    (Toy.world0 [] store)
  = (0,
     Toy.world []
       [MInitializing "scaffold"; MExecutingSteps;
        MStepHeader 1 None; MStep "Executing step";
        MCreatedDirectory "/work/src"; MStepHeader 2 None;
        MStep "Executing step"; MCommandFailed "exit 1";
        MCommandStderr "failed"; MFailedAtStep 2]
       machine_failed).
Proof.
  apply (proj1 (init_exit_status (H := Toy.toy) "template-engine.py"
                  "scaffold" [] (Toy.world0 [] store)) false).
  reflexivity.
Defined.

(** [init broken], the file of [broken] being corrupt: the exception leaves
    [main], nothing has been printed, and the exit status is 1. *)
Lemma malformed_template_escapes_witness :
  execute_template (H := Toy.toy) "broken" None (Toy.world0 [] store)
  = (Raise (JSONDecodeError "Expecting value"), Toy.world0 [] store)
  ∧ exit_status (H := Toy.toy) ["template-engine.py"; "init"; "broken"]
      (Toy.world0 [] store)
    = (1, Toy.world0 [] store).
Proof.
  apply (malformed_template_escapes (H := Toy.toy) "template-engine.py"
           "broken" "Expecting value" [] (Toy.world0 [] store));
    reflexivity.
Defined.

(** The listing of the same directory warns about the corrupt file and goes
    on. *)
Example listing_reports_corrupt_file :
  list_templates (H := Toy.toy) (Toy.world0 [] store)
  = (Ret [set_filename scaffold "scaffold"],
     Toy.world [] [MInvalidTemplateFile "broken" "Expecting value"]
       (Toy.machine0 store)).
Proof. reflexivity. Qed.

End RunnerExamples.

(* ===================================================================== *)
(** ** More on the variable collector *)
(* ===================================================================== *)

Module CollectorMore.

Import Str Regex Engine Notions MoreNotions Samples MoreSamples MonadFacts Collector Collection.

Lemma dict_set_keys (d : dict) (k v j : string) :
  j ∈ (dict_set d k v).*1 ↔ j = k ∨ j ∈ d.*1.
Proof.
  induction d as [|[k' v'] d IH]; simpl.
  - rewrite list_elem_of_singleton. split; [by left | intros [|Hin]; [done | inversion Hin]].
  - destruct (decide (k' = k)) as [->|Hne]; simpl.
    + rewrite !elem_of_cons. tauto.
    + rewrite !elem_of_cons, IH. tauto.
Qed.

Lemma dict_set_NoDup (d : dict) (k v : string) :
  NoDup d.*1 → NoDup (dict_set d k v).*1.
Proof.
  induction d as [|[k' v'] d IH]; simpl; intros Hd.
  - repeat constructor. intros Hin. inversion Hin.
  - apply NoDup_cons in Hd as [Hk' Hd].
    destruct (decide (k' = k)) as [->|Hne]; simpl.
    + by apply NoDup_cons.
    + apply NoDup_cons. split; [| by apply IH].
      rewrite dict_set_keys. intros [|]; done.
Qed.

Lemma reject_Raise (options : list string) (validation : option pattern)
    (value : string) (e : exn) :
  reject options validation value = Raise e →
  ∃ pat, validation = Some pat ∧ p_compiled pat = None
         ∧ e = ReError (p_source pat).
Proof.
  unfold reject. destruct (negb (truthy value)); [done |].
  destruct (_ && _); [done |].
  destruct validation as [pat|]; [| done].
  destruct (p_compiled pat) as [compiled|] eqn:Hc.
  - by destruct (negb _).
  - intros [= <-]. by exists pat.
Qed.

(** The prompt loop raises when the input has run out, or when the pattern
    does not compile. *)
Lemma prompt_loop_Raise prompt default options validation lines out e rest out' :
  prompt_loop prompt default options validation lines out = (Raise e, rest, out') →
  e = EOFError ∧ rest = []
  ∨ ∃ pat, validation = Some pat ∧ p_compiled pat = None
           ∧ e = ReError (p_source pat).
Proof.
  revert out. induction lines as [|l lines IH]; intros out Hrun; simpl in Hrun.
  - left. by injection Hrun as <- <- _.
  - destruct (reject _ _ _) as [[complaint|]|e'] eqn:Hr;
      [by eapply IH | discriminate |].
    injection Hrun as <- _ _. right. by eapply reject_Raise.
Qed.

Section Collect.

Context {H : Host}.

Lemma collect_one_os (variables : dict) (cfg : var_config) (w w' : World)
    (r : result dict) :
  collect_one variables cfg w = (r, w') → os w' = os w.
Proof.
  unfold collect_one, bind, item, ret, raise.
  destruct (v_name cfg) as [name|]; [| by intros [= _ <-]].
  destruct (prompt_loop _ _ _ _ _ _) as [[[value|e] lines] out];
    by intros [= _ <-].
Qed.

Lemma collect_one_Raise (variables : dict) (cfg : var_config) (w w' : World)
    (e : exn) :
  collect_one variables cfg w = (Raise e, w') →
  e = KeyError "name"
  ∨ e = EOFError ∧ stdin w' = []
  ∨ ∃ pat, v_validation cfg = Some pat ∧ p_compiled pat = None
           ∧ e = ReError (p_source pat).
Proof.
  unfold collect_one, bind, item, ret, raise.
  destruct (v_name cfg) as [name|]; [| intros [= <- _]; by left].
  destruct (prompt_loop _ _ _ _ _ _) as [[[value|e'] lines] out] eqn:Hp;
    [discriminate |].
  intros [= <- <-]. right.
  apply prompt_loop_Raise in Hp as [[-> ->] | Hpat]; [by left | by right].
Qed.

(** A variable that gets its value has read at least one line for it. *)
Lemma collect_one_consumes (variables vars' : dict) (cfg : var_config)
    (w w' : World) :
  collect_one variables cfg w = (Ret vars', w') →
  ∃ consumed name value,
    stdin w = consumed ++ stdin w' ∧ (1 ≤ length consumed)%nat
    ∧ v_name cfg = Some name ∧ vars' = dict_set variables name value.
Proof.
  unfold collect_one. intros Hrun.
  apply bind_Ret_inv in Hrun as (name & w1 & Hname & Hrun).
  apply item_Ret_inv in Hname as [Hname ->].
  apply bind_Ret_inv in Hrun as (value & w2 & Hloop & Hrun).
  injection Hrun as <- <-.
  destruct (prompt_loop _ _ _ _ _ _) as [[r lines] out] eqn:Hp.
  injection Hloop as -> <-.
  apply prompt_loop_Ret in Hp as (rejected & line & Hlines & _).
  exists (rejected ++ [line]), name, value. simpl.
  rewrite Hlines, <- app_assoc, length_app. simpl.
  repeat split; [lia | done].
Qed.

Lemma collect_loop_Ret_shape (todo : list var_config) :
  ∀ (variables vars : dict) (w w' : World),
    collect_loop variables todo w = (Ret vars, w') →
    os w' = os w
    ∧ (∃ consumed, stdin w = consumed ++ stdin w'
                   ∧ (length todo ≤ length consumed)%nat)
    ∧ (NoDup variables.*1 → NoDup vars.*1)
    ∧ (∀ k, k ∈ vars.*1 ↔ k ∈ variables.*1 ∨ k ∈ names todo)
    ∧ Forall (λ cfg, is_Some (v_name cfg)) todo.
Proof.
  induction todo as [|cfg todo IH]; intros variables vars w w' Hrun.
  - injection Hrun as <- <-. split; [done |].
    split; [by exists [] |]. split; [done |]. split; [| constructor].
    intros k. split; [by left | intros [|Hin]; [done | inversion Hin]].
  - simpl in Hrun.
    apply bind_Ret_inv in Hrun as (vars1 & w1 & Hone & Hrun).
    pose proof (collect_one_os _ _ _ _ _ Hone) as Hos1.
    apply collect_one_consumes in Hone
      as (consumed1 & name & value & Hin1 & Hlen1 & Hname & ->).
    apply IH in Hrun as (Hos & (consumed & Hin & Hlen) & Hnodup & Hkeys & Hall).
    split; [congruence |]. split; [| split; [| split]].
    + exists (consumed1 ++ consumed). rewrite Hin1, Hin, <- app_assoc.
      split; [done |]. rewrite length_app. simpl. lia.
    + intros Hd. by apply Hnodup, dict_set_NoDup.
    + intros k. rewrite Hkeys, dict_set_keys. unfold names. simpl.
      rewrite Hname. rewrite elem_of_cons. tauto.
    + constructor; [by rewrite Hname | done].
Qed.

Lemma collect_loop_Raise (todo : list var_config) :
  ∀ (variables : dict) (w w' : World) (e : exn),
    collect_loop variables todo w = (Raise e, w') →
    os w' = os w
    ∧ (e = KeyError "name"
       ∨ e = EOFError ∧ stdin w' = []
       ∨ ∃ cfg pat, cfg ∈ todo ∧ v_validation cfg = Some pat
                    ∧ p_compiled pat = None ∧ e = ReError (p_source pat)).
Proof.
  induction todo as [|cfg todo IH]; intros variables w w' e Hrun; [done |].
  simpl in Hrun. unfold bind in Hrun.
  destruct (collect_one variables cfg w) as [[vars1|e1] w1] eqn:Hone.
  - apply collect_one_os in Hone. apply IH in Hrun as [Hos He].
    split; [congruence |].
    destruct He as [He | [He | (cfg' & pat & Hin & Hrest)]];
      [by left | by right; left |].
    right. right. exists cfg', pat. split; [by right | done].
  - injection Hrun as <- <-. split; [by eapply collect_one_os |].
    apply collect_one_Raise in Hone as [He | [He | (pat & Hrest)]];
      [by left | by right; left |].
    right. right. exists cfg, pat. split; [left | done].
Qed.

(** X1: a mapping that [collect_variables] returns has each key once, and
    its keys are exactly the names of the template's variables: no variable
    is left without a value. *)
Theorem collected_keys_are_the_names
    (template : template) (w w' : World) (vars : dict) :
  collect_variables template w = (Ret vars, w') →
  NoDup vars.*1
  ∧ Forall (λ cfg, is_Some (v_name cfg)) (get (t_variables template) [])
  ∧ ∀ k, k ∈ vars.*1 ↔ k ∈ names (get (t_variables template) []).
Proof.
  unfold collect_variables. intros Hrun.
  destruct (t_variables template) as [configs|]; simpl.
  2: { injection Hrun as <- <-. split; [constructor |]. split; [constructor |]. done. }
  apply bind_Ret_inv in Hrun as (tname & w1 & Hname & Hrun).
  apply bind_Ret_inv in Hrun as ([] & w2 & _ & Hrun).
  apply bind_Ret_inv in Hrun as ([] & w3 & _ & Hrun).
  apply collect_loop_Ret_shape in Hrun as (_ & _ & Hnodup & Hkeys & Hall).
  split; [apply Hnodup; constructor |]. split; [done |].
  intros k. rewrite Hkeys. split; [intros [Hin|]; [inversion Hin | done] | by right].
Qed.

(** X2: a run of [collect_variables] that returns has read at least one
    line of input for each variable of the template, default or not; what
    it leaves to read is the rest of the input, and the machine is as it
    was. *)
Theorem collect_reads_a_line_per_variable
    (template : template) (w w' : World) (vars : dict) :
  collect_variables template w = (Ret vars, w') →
  os w' = os w
  ∧ ∃ consumed, stdin w = consumed ++ stdin w'
                ∧ (length (get (t_variables template) []) ≤ length consumed)%nat.
Proof.
  unfold collect_variables. intros Hrun.
  destruct (t_variables template) as [configs|]; simpl.
  2: { injection Hrun as <- <-. split; [done |]. by exists []. }
  apply bind_Ret_inv in Hrun as (tname & w1 & Hname & Hrun).
  apply item_Ret_inv in Hname as [_ ->].
  apply bind_Ret_inv in Hrun as ([] & w2 & [= <-] & Hrun).
  apply bind_Ret_inv in Hrun as ([] & w3 & [= <-] & Hrun).
  by apply collect_loop_Ret_shape in Hrun as (Hos & Hin & _).
Qed.

(** X3: whatever exception leaves [collect_variables], the machine is as it
    was.  A [KeyError] that leaves it is for the key [name], of the
    template or of a variable; [EOFError] leaves it only once the input is
    used up; and [re.error] leaves it only for a variable of the template
    whose pattern does not compile. *)
Theorem collect_raises_key_or_eof
    (template : template) (w w' : World) (e : exn) :
  collect_variables template w = (Raise e, w') →
  os w' = os w
  ∧ match e with
    | KeyError key => key = "name"
    | EOFError => stdin w' = []
    | ReError source =>
        ∃ cfg pat, cfg ∈ get (t_variables template) []
                   ∧ v_validation cfg = Some pat
                   ∧ p_compiled pat = None ∧ p_source pat = source
    | _ => True
    end.
Proof.
  unfold collect_variables. intros Hrun.
  destruct (t_variables template) as [configs|]; [| discriminate].
  unfold bind at 1 in Hrun. unfold item in Hrun.
  destruct (t_name template) as [tname|]; simpl in Hrun.
  - unfold bind at 1 in Hrun. simpl in Hrun.
    unfold bind at 1 in Hrun. simpl in Hrun.
    apply collect_loop_Raise in Hrun
      as [Hos [-> | [[-> Hin] | (cfg & pat & Hcfg & Hv & Hc & ->)]]];
      (split; [done |]); [done | done |].
    by exists cfg, pat.
  - by injection Hrun as <- <-.
Qed.

End Collect.

Lemma collected_keys_are_the_names_witness :
  NoDup [("env", "dev"); ("app", "myapp")].*1
  ∧ Forall (λ cfg, is_Some (v_name cfg)) (get (t_variables demo_template) [])
  ∧ ∀ k, k ∈ [("env", "dev"); ("app", "myapp")].*1
         ↔ k ∈ names (get (t_variables demo_template) []).
Proof.
  apply (collected_keys_are_the_names (H := Toy.toy) demo_template
           (Toy.world0 ["stage"; "  "; "My-App"; "myapp"] None)
           (snd (collect_variables demo_template
                   (Toy.world0 ["stage"; "  "; "My-App"; "myapp"] None)))
           [("env", "dev"); ("app", "myapp")]).
  vm_compute. reflexivity.
Defined.

Lemma collect_reads_a_line_per_variable_witness :
  os (Toy.world [] [] (Toy.machine0 None)) = os (Toy.world0 ["  "; "myapp"] None)
  ∧ ∃ consumed,
      stdin (Toy.world0 ["  "; "myapp"] None)
      = consumed ++ stdin (Toy.world [] [] (Toy.machine0 None))
      ∧ (length (get (t_variables demo_template) []) ≤ length consumed)%nat.
Proof.
  apply (collect_reads_a_line_per_variable (H := Toy.toy) demo_template
           (Toy.world0 ["  "; "myapp"] None)
           (Toy.world []
              (stdout (snd (collect_variables demo_template
                              (Toy.world0 ["  "; "myapp"] None))))
              (Toy.machine0 None))
           [("env", "dev"); ("app", "myapp")]).
  vm_compute. reflexivity.
Defined.

(** The pattern [[] of [unmatched_template] does not compile: the first
    line that is not empty makes [re.match] raise. *)
Lemma collect_raises_key_or_eof_witness :
  os (Toy.world ["y"] [MConfiguring "unmatched"; MDescription EmptyString;
                       MPrompt "Value for app: "] (Toy.machine0 None))
  = os (Toy.world0 ["x"; "y"] None)
  ∧ ∃ cfg pat, cfg ∈ get (t_variables unmatched_template) []
               ∧ v_validation cfg = Some pat
               ∧ p_compiled pat = None ∧ p_source pat = "[".
Proof.
  apply (collect_raises_key_or_eof (H := Toy.toy) unmatched_template
           (Toy.world0 ["x"; "y"] None)
           (Toy.world ["y"] [MConfiguring "unmatched"; MDescription EmptyString;
                             MPrompt "Value for app: "] (Toy.machine0 None))
           (ReError "[")).
  reflexivity.
Defined.

End CollectorMore.

(* ===================================================================== *)
(** ** More on substitution *)
(* ===================================================================== *)

Module SubstitutionMore.

Import Str StrFacts Engine Substitution.

Lemma contains_occurs (old s : string) : contains old s = true → occurs old s.
Proof.
  induction s as [|c t IH]; cbn [contains]; intros Hc.
  - apply orb_true_iff in Hc as [Hp|[=]]. apply prefix_inv in Hp as [r Hr].
    exists EmptyString, r. exact Hr.
  - apply orb_true_iff in Hc as [Hp|Ht].
    + apply prefix_inv in Hp as [r Hr]. exists EmptyString, r. exact Hr.
    + by apply occurs_tail, IH.
Qed.

(** Where a token occurs, so do its two opening braces. *)
Lemma token_contains_braces (name text : string) :
  contains (token name) text = true → contains "{{" text = true.
Proof.
  intros Hc. apply contains_occurs in Hc as (pre & post & ->).
  apply occurs_contains. exists pre, (name +:+ "}}" +:+ post).
  unfold token. by rewrite !str_app_assoc.
Qed.

(** X4: tokens that name no variable of the mapping are left in the text as
    they are: a text in which the token of no entry occurs comes back
    unchanged. *)
Theorem unknown_tokens_are_kept (text : string) (variables : dict) :
  Forall (λ name, contains (token name) text = false) variables.*1 →
  substitute_variables text variables = text.
Proof. apply substitute_untouched. Qed.

Lemma unknown_tokens_are_kept_witness :
  substitute_variables "cd {{dir}} && make" [("name", "x"); ("env", "dev")]
  = "cd {{dir}} && make".
Proof.
  apply (unknown_tokens_are_kept "cd {{dir}} && make"
           [("name", "x"); ("env", "dev")]).
  repeat constructor.
Defined.

(** X5: a text without two opening braces in a row is not changed by any
    mapping, whatever its names and values. *)
Theorem text_without_braces_is_unchanged (text : string) (variables : dict) :
  contains "{{" text = false →
  substitute_variables text variables = text.
Proof.
  intros Hplain. apply substitute_untouched, Forall_forall.
  intros name _. destruct (contains (token name) text) eqn:Hc; [| done].
  apply token_contains_braces in Hc. congruence.
Qed.

Lemma text_without_braces_is_unchanged_witness :
  substitute_variables "npm install" [("npm", "yarn"); ("install", "add")]
  = "npm install".
Proof.
  apply (text_without_braces_is_unchanged "npm install"
           [("npm", "yarn"); ("install", "add")]).
  reflexivity.
Defined.

End SubstitutionMore.

(* ===================================================================== *)
(** ** What a method leaves alone, and what it can raise *)
(* ===================================================================== *)

Module Frames.

Import Engine Notions MoreNotions MonadFacts.

Section Frame.

Context {H : Host}.

Lemma read_only_ret {A} (a : A) : read_only (ret a).
Proof. by intros w. Qed.

Lemma read_only_raise {A} (e : exn) : read_only (raise (A := A) e).
Proof. by intros w. Qed.

Lemma read_only_print (m : message) : read_only (print m).
Proof. by intros w. Qed.

Lemma read_only_query {A} (f : host → A) : read_only (query f).
Proof. by intros w. Qed.

Lemma read_only_item {A} (key : string) (field : option A) :
  read_only (item key field).
Proof. intros w. by destruct field. Qed.

Lemma read_only_bind {A B} (m : M World A) (k : A → M World B) :
  read_only m → (∀ a, read_only (k a)) → read_only (bind m k).
Proof.
  intros Hm Hk w. unfold bind. specialize (Hm w).
  destruct (m w) as [[a|e] w1]; simpl in *; [| done].
  destruct Hm as [Hos1 Hin1]. destruct (Hk a w1) as [Hos Hin].
  split; congruence.
Qed.

Lemma read_only_try {A} (m : M World A) (handler : exn → option (M World A)) :
  read_only m → (∀ e h, handler e = Some h → read_only h) →
  read_only (try_except m handler).
Proof.
  intros Hm Hh w. unfold try_except. specialize (Hm w).
  destruct (m w) as [[a|e] w1]; simpl in *; [done |].
  destruct (handler e) as [h|] eqn:He; [| done].
  destruct Hm as [Hos1 Hin1]. destruct (Hh e h He w1) as [Hos Hin].
  split; congruence.
Qed.

Lemma read_only_for_each {A} (l : list A) (body : A → M World unit) :
  (∀ x, read_only (body x)) → read_only (for_each l body).
Proof.
  intros Hbody. induction l as [|x l IH]; simpl.
  - apply read_only_ret.
  - apply read_only_bind; [apply Hbody | by intros _].
Qed.

Lemma read_only_list_loop (stems : list string) :
  ∀ templates, read_only (list_loop templates stems).
Proof.
  induction stems as [|stem rest IH]; intros templates; simpl.
  - apply read_only_ret.
  - apply read_only_bind; [| by intros ?].
    unfold list_one. apply read_only_bind; [apply read_only_query |].
    intros [t|detail| | |];
      [apply read_only_ret | | apply read_only_raise..].
    apply read_only_bind; [apply read_only_print | intros _; apply read_only_ret].
Qed.

Lemma read_only_list_templates : read_only list_templates.
Proof.
  unfold list_templates. apply read_only_bind; [apply read_only_query |].
  intros present. destruct (negb present); [apply read_only_ret |].
  apply read_only_bind; [apply read_only_query | intros stems].
  apply read_only_bind; [apply read_only_list_loop | intros ?].
  apply read_only_ret.
Qed.

Lemma read_only_load_template (template_name : string) :
  read_only (load_template template_name).
Proof.
  unfold load_template. apply read_only_bind; [apply read_only_query |].
  intros present. destruct (negb present); [apply read_only_raise |].
  apply read_only_bind; [apply read_only_query |].
  intros [t|detail| | |];
    first [apply read_only_ret | apply read_only_raise].
Qed.

Lemma read_only_as_dict (value : json_value) : read_only (as_dict value).
Proof. destruct value; [apply read_only_ret | apply read_only_raise]. Qed.

(** *** Exceptions *)

Lemma raises_only_ret {A} (P : exn → Prop) (a : A) : raises_only P (ret a).
Proof. intros w e w' [=]. Qed.

Lemma raises_only_raise {A} (P : exn → Prop) (e : exn) :
  P e → raises_only P (raise (A := A) e).
Proof. by intros He w e' w' [= <- _]. Qed.

Lemma raises_only_print (P : exn → Prop) (m : message) : raises_only P (print m).
Proof. intros w e w' [=]. Qed.

Lemma raises_only_query {A} (P : exn → Prop) (f : host → A) :
  raises_only P (query f).
Proof. intros w e w' [=]. Qed.

Lemma raises_only_call {A} (P : exn → Prop) (f : host → A * host) :
  raises_only P (call f).
Proof. intros w e w'. unfold call. by destruct (f (os w)). Qed.

Lemma raises_only_item {A} (P : exn → Prop) (key : string) (field : option A) :
  P (KeyError key) → raises_only P (item key field).
Proof. intros He w e w'. destruct field; [intros [=] | by intros [= <- _]]. Qed.

Lemma raises_only_bind {A B} (P : exn → Prop) (m : M World A) (k : A → M World B) :
  raises_only P m → (∀ a, raises_only P (k a)) → raises_only P (bind m k).
Proof.
  intros Hm Hk w e w'. unfold bind.
  destruct (m w) as [[a|e1] w1] eqn:E.
  - apply Hk.
  - intros [= <- <-]. by eapply Hm.
Qed.

Lemma raises_only_for_each {A} (P : exn → Prop) (l : list A)
    (body : A → M World unit) :
  (∀ x, raises_only P (body x)) → raises_only P (for_each l body).
Proof.
  intros Hbody. induction l as [|x l IH]; simpl.
  - apply raises_only_ret.
  - apply raises_only_bind; [apply Hbody | by intros _].
Qed.

Lemma raises_only_for_until {A} (P : exn → Prop) (l : list A)
    (body : A → M World bool) :
  (∀ x, raises_only P (body x)) → raises_only P (for_until l body).
Proof.
  intros Hbody. induction l as [|x l IH]; simpl.
  - apply raises_only_ret.
  - apply raises_only_bind; [apply Hbody |].
    intros [|]; [done | apply raises_only_ret].
Qed.

Lemma raises_only_try {A} (P Q : exn → Prop) (m : M World A)
    (handler : exn → option (M World A)) :
  raises_only Q m →
  (∀ e, Q e → match handler e with
              | Some h => raises_only P h
              | None => P e
              end) →
  raises_only P (try_except m handler).
Proof.
  intros Hm Hh w e w'. unfold try_except.
  destruct (m w) as [[a|e1] w1] eqn:E; [intros [=] |].
  specialize (Hh e1 (Hm _ _ _ E)).
  destruct (handler e1) as [h|]; [apply Hh | by intros [= <- _]].
Qed.

End Frame.

End Frames.

(* ===================================================================== *)
(** ** More on the template runner *)
(* ===================================================================== *)

Module RunnerMore.

Import Str Engine Notions MoreNotions Samples MonadFacts Loop RunFacts Frames CollectorMore.

Section Run.

Context {H : Host}.

(** X6: a template whose file is not there is reported and nothing else
    happens: [execute_template] prints the error and returns [false]
    without reading input or touching the machine, and [info] prints its
    own line and returns. *)
Theorem missing_template_is_reported
    (prog template_name : string) (target_dir : option string)
    (more : list string) (w : World) :
  template_file_exists template_name (os w) = false →
  execute_template template_name target_dir w
  = (Ret false, after w [MError (FileNotFoundError template_name)] (os w))
  ∧ main (prog :: "info" :: template_name :: more) w
    = (Ret (), after w [MTemplateNotFound template_name] (os w)).
Proof.
  intros Hmissing.
  assert (Hload : ∀ A (k : json_value → M World A),
            bind (load_template template_name) k w
            = (Raise (FileNotFoundError template_name), w)).
  { intros A k. unfold load_template. rewrite bind_assoc, bind_query, Hmissing.
    reflexivity. }
  split.
  - unfold execute_template. unfold bind at 1. unfold try_except.
    by rewrite Hload.
  - unfold main.
    destruct (decide ("info" = "list")) as [|_]; [done |].
    destruct (decide ("info" = "init")) as [|_]; [done |].
    destruct (decide ("info" = "info")) as [_|]; [| done].
    unfold try_except. by rewrite Hload.
Qed.

(** X7: a template without a [name] key cannot be run: once it is loaded,
    [execute_template] raises [KeyError] for [name] before it has printed,
    read or executed anything. *)
Theorem nameless_template_raises
    (template_name : string) (target_dir : option string) (t : template)
    (w : World) :
  template_file_exists template_name (os w) = true →
  load_json template_name (os w) = Document t →
  t_name t = None →
  execute_template template_name target_dir w = (Raise (KeyError "name"), w).
Proof.
  intros Hexists Hload Hname.
  unfold execute_template. rewrite (try_load_Document _ _ _ _ _ Hexists Hload).
  unfold as_dict. rewrite bind_ret_l.
  unfold collect_variables. rewrite Hname.
  destruct (t_variables t) as [configs|].
  - reflexivity.
  - rewrite bind_ret_l. by destruct target_dir.
Qed.

Lemma prerequisite_body_false (prereq : string) (w w' : World) :
  prerequisite_body prereq w = (Ret false, w') →
  stdout w' = stdout w ++ [MMissingPrerequisite prereq].
Proof.
  unfold prerequisite_body, check_prerequisite, bind, call, print, ret.
  destruct (subprocess_run _ _ _ _) as [[returncode out err| |detail] h]; simpl.
  - case_bool_decide; simpl; [discriminate | by intros [= <-]].
  - by intros [= <-].
  - by intros [= <-].
Qed.

Lemma prerequisites_false (prereqs : list string) :
  ∀ w w', for_until prereqs prerequisite_body w = (Ret false, w') →
          ∃ missing out, missing ∈ prereqs
                         ∧ stdout w' = out ++ [MMissingPrerequisite missing].
Proof.
  induction prereqs as [|prereq rest IH]; intros w w' Hrun; [done |].
  rewrite for_until_cons in Hrun.
  destruct (prerequisite_body prereq w) as [[[|]|e] w1] eqn:Hbody.
  - destruct (IH _ _ Hrun) as (missing & out & Hin & Hout).
    exists missing, out. split; [by right | done].
  - injection Hrun as <-. apply prerequisite_body_false in Hbody.
    exists prereq, (stdout w). split; [left | done].
  - discriminate.
Qed.

(** X8: a prerequisite that is missing stops the run before any step.
    When the loop over the declared prerequisites returns [false],
    [execute_template] returns [false] in the very world that loop left,
    whatever the steps and post-install commands of the template are; the
    last line printed names a prerequisite of the template as missing. *)
Theorem missing_prerequisite_aborts
    (template_name name : string) (target_dir : option string) (t : template)
    (variables : dict) (prereqs : list string) (w w1 w2 : World) :
  template_file_exists template_name (os w) = true →
  load_json template_name (os w) = Document t →
  collect_variables t w = (Ret variables, w1) →
  t_name t = Some name →
  t_prerequisites t = Some prereqs →
  for_until prereqs prerequisite_body
    (after w1 [MInitializing name; MCheckingPrerequisites] (os w1))
  = (Ret false, w2) →
  execute_template template_name target_dir w = (Ret false, w2)
  ∧ ∃ missing out, missing ∈ prereqs
                   ∧ stdout w2 = out ++ [MMissingPrerequisite missing].
Proof.
  intros Hexists Hload Hcollect Hname Hprereqs Hloop.
  split; [| by eapply prerequisites_false].
  unfold execute_template. rewrite (try_load_Document _ _ _ _ _ Hexists Hload).
  unfold as_dict. rewrite bind_ret_l, (bind_Ret _ _ _ _ _ Hcollect).
  destruct target_dir as [d|]; [rewrite bind_ret_l | rewrite bind_query];
    rewrite Hname, Hprereqs; unfold item;
    rewrite bind_ret_l, bind_print, bind_assoc, bind_print, after_after,
      bind_assoc; simpl;
    by rewrite (bind_Ret _ _ _ _ _ Hloop).
Qed.

(** X9: [execute_template] returns [true] only for a run in which the
    template was loaded, the variables were collected, the prerequisites
    were passed, and then every step of the template was executed, in
    order from the world the prerequisite phase left, each returning
    [true].  The world it returns in is the one the last step left, after
    every post-install command has been handed to [os.system], in order,
    and the closing lines and the success line have been printed. *)
Theorem success_means_every_step_succeeded
    (template_name : string) (target_dir : option string) (w w' : World) :
  execute_template template_name target_dir w = (Ret true, w') →
  ∃ (t : template) (variables : dict) (name : string) (w1 w2 w3 : World),
    load_json template_name (os w) = Document t
    ∧ collect_variables t w = (Ret variables, w1)
    ∧ t_name t = Some name
    ∧ prerequisites_pass t (after w1 [MInitializing name] (os w1)) w2
    ∧ in_order variables (default (getcwd (os w1)) target_dir) 1
        (get (t_steps t) []) (after w2 [MExecutingSteps] (os w2)) w3
    ∧ w' = after w3 (closing_lines variables t ++ [MSuccess name])
             (after_post_install variables (get (t_postInstall t) []) (os w3)).
Proof.
  unfold execute_template. intros Hrun.
  apply bind_Ret_inv in Hrun as (found & w0 & Htry & Hrun).
  destruct found as [value|]; [| discriminate].
  apply try_except_Ret_inv in Htry as [Hload | (e & w1 & h & _ & Hh & Hret)].
  2: { destruct e; try discriminate. by injection Hh as <-. }
  apply bind_Ret_inv in Hload as (value' & w0' & Hload & [= -> ->]).
  apply load_template_Ret_inv in Hload as (-> & _ & Hload).
  apply bind_Ret_inv in Hrun as (t & w0 & Hdict & Hrun).
  destruct value as [t'|]; [| discriminate]. injection Hdict as -> <-.
  apply bind_Ret_inv in Hrun as (variables & w1 & Hcollect & Hrun).
  apply bind_Ret_inv in Hrun as (d & w1' & Hd & Hrun).
  assert (d = default (getcwd (os w1)) target_dir ∧ w1' = w1) as [-> ->].
  { destruct target_dir; by injection Hd as <- <-. }
  apply bind_Ret_inv in Hrun as (name & w2 & Hname & Hrun).
  apply item_Ret_inv in Hname as [Hname ->].
  rewrite bind_print in Hrun.
  apply bind_Ret_inv in Hrun as (ready & w2 & Hready & Hrun).
  destruct ready; [| discriminate]. cbn [negb] in Hrun.
  apply prerequisites_phase_true in Hready.
  rewrite bind_print in Hrun.
  apply bind_Ret_inv in Hrun as (done_ & w3 & Hloop & Hrun).
  destruct done_; [| discriminate]. cbn [negb] in Hrun.
  apply for_until_true_in_order in Hloop.
  rewrite (bind_Ret _ _ _ _ _ (post_install_phase _ _ _)) in Hrun.
  rewrite (bind_Ret _ _ _ _ _ (next_steps_phase _ _)) in Hrun.
  rewrite Hname in Hrun. unfold item in Hrun.
  rewrite bind_ret_l, bind_print in Hrun. injection Hrun as <-.
  exists t, variables, name, w1, w2, w3.
  split; [done |]. split; [done |]. split; [done |]. split; [done |].
  split; [done |].
  unfold closing_lines. rewrite !after_after. cbn [os after].
  by rewrite <- !app_assoc.
Qed.

Lemma collect_loop_escaping (variables : dict) (configs : list var_config) :
  raises_only escaping (collect_loop variables configs).
Proof.
  intros w e w' Hrun.
  apply collect_loop_Raise in Hrun
    as [_ [-> | [[-> _] | (cfg & pat & _ & _ & _ & ->)]]]; simpl;
    [left | done | done].
Qed.

(** X10: a [KeyError] that leaves [execute_template] is for a missing
    [name], [command] or [path] key, and a [JSONDecodeError] that leaves it
    is the one of loading the template file, which is there and does not
    parse: it is raised before anything is printed, read or run.  Nothing
    is said here of the other exceptions. *)
Theorem execute_template_raises_only
    (template_name : string) (target_dir : option string) (w w' : World)
    (e : exn) :
  execute_template template_name target_dir w = (Raise e, w') →
  match e with
  | KeyError key => key ∈ ["name"; "command"; "path"]
  | JSONDecodeError detail =>
      template_file_exists template_name (os w) = true
      ∧ load_json template_name (os w) = Malformed detail
      ∧ w' = w
  | _ => True
  end.
Proof.
  unfold execute_template. intros Hrun.
  match type of Hrun with
  | bind _ ?k _ = _ =>
      assert (Hrest : ∀ found, raises_only escaping (k found))
  end.
  { intros [value|]; [| apply raises_only_ret].
    unfold as_dict, collect_variables, step_body, execute_step,
      run_command_step, run_directory_step, run_file_step, prerequisite_body,
      check_prerequisite.
    repeat first
      [ apply raises_only_ret | apply raises_only_print
      | apply raises_only_query | apply raises_only_call
      | by apply raises_only_raise
      | apply collect_loop_escaping
      | apply raises_only_item; simpl; by repeat constructor
      | apply raises_only_bind; [| intros ?]
      | apply raises_only_for_each; intros ?
      | apply raises_only_for_until; intros ?
      | progress cbv beta
      | match goal with
        | |- context [match ?x with _ => _ end] => destruct x
        end ]. }
  apply bind_Raise_inv in Hrun as [Hload | (found & w1 & _ & Hrun)].
  - rewrite try_load_cases in Hload.
    destruct (template_file_exists template_name (os w)); [| discriminate].
    destruct (load_json template_name (os w)) eqn:Hdoc; try discriminate;
      by injection Hload as <- <-.
  - apply Hrest in Hrun. by destruct e.
Qed.

(** X11: only [init] can change the machine or read input: for every other
    command line ([list], [info], an unknown command, a missing argument),
    [main] leaves the machine and the standard input as they were,
    whatever it prints and whether it returns or raises. *)
Theorem main_without_init_is_read_only (argv : list string) (w : World) :
  argv !! 1 ≠ Some "init" →
  os (main argv w).2 = os w ∧ stdin (main argv w).2 = stdin w.
Proof.
  intros Hcommand. revert w. change (read_only (main argv)).
  destruct argv as [|prog [|command args]]; [apply read_only_print.. |].
  unfold main.
  destruct (decide (command = "list")) as [_|_].
  { apply read_only_bind; [apply read_only_list_templates | intros templates].
    destruct templates as [|t templates]; [apply read_only_print |].
    repeat first
      [ apply read_only_print | apply read_only_item | apply read_only_ret
      | apply read_only_bind; [| intros ?]
      | apply read_only_for_each; intros ? ]. }
  destruct (decide (command = "init")) as [->|_]; [done |].
  destruct (decide (command = "info")) as [_|_]; [| apply read_only_print].
  destruct args as [|template_name args]; [apply read_only_print |].
  apply read_only_try.
  - apply read_only_bind; [apply read_only_load_template | intros template].
    repeat first
      [ apply read_only_print | apply read_only_item | apply read_only_ret
      | apply read_only_as_dict
      | apply read_only_bind; [| intros ?]
      | apply read_only_for_each; intros ?
      | match goal with
        | |- context [match ?x with _ => _ end] => destruct x
        end ].
  - intros e h Hh. destruct e; try discriminate. injection Hh as <-.
    apply read_only_print.
Qed.

(** A file that breaks the listing makes [list_templates] raise. *)
Lemma list_templates_aborts (w : World) :
  aborts (os w) = true → ∃ e w', list_templates w = (Raise e, w').
Proof.
  unfold aborts. intros [Hdir Hbroken]%andb_true_iff.
  apply existsb_first in Hbroken as (before & stem & rest & Hglob & Hclean & Hstem).
  unfold list_templates. rewrite bind_query, Hdir. simpl.
  rewrite bind_query, Hglob. unfold bind at 1.
  rewrite (Store.list_loop_broken before [] w stem rest Hclean Hstem).
  by eexists _, _.
Qed.



End Run.

End RunnerMore.

Module RunnerMoreExamples.

Import Engine Notions MoreNotions MoreSamples Loop RunnerMore.

Lemma missing_template_is_reported_witness :
  execute_template (H := Toy.toy) "absent" None (Toy.world0 ["y"] shelf)
  = (Ret false,
     after (Toy.world0 ["y"] shelf) [MError (FileNotFoundError "absent")]
       (Toy.machine0 shelf))
  ∧ main (H := Toy.toy) ["template-engine.py"; "info"; "absent"]
      (Toy.world0 ["y"] shelf)
    = (Ret (),
       after (Toy.world0 ["y"] shelf) [MTemplateNotFound "absent"]
         (Toy.machine0 shelf)).
Proof.
  apply (missing_template_is_reported (H := Toy.toy) "template-engine.py"
           "absent" None [] (Toy.world0 ["y"] shelf)).
  reflexivity.
Defined.

Lemma nameless_template_raises_witness :
  execute_template (H := Toy.toy) "nameless" None (Toy.world0 ["y"] shelf)
  = (Raise (KeyError "name"), Toy.world0 ["y"] shelf).
Proof.
  apply (nameless_template_raises (H := Toy.toy) "nameless" None nameless
           (Toy.world0 ["y"] shelf));
    reflexivity.
Defined.

(** [git] is found, the second tool is not: no directory is made. *)
Lemma missing_prerequisite_aborts_witness :
  execute_template (H := Toy.toy) "gated" None (Toy.world0 [] shelf)
  = (Ret false,
     Toy.world []
       [MInitializing "gated"; MCheckingPrerequisites;
        MMissingPrerequisite "definitely-not-a-real-tool-xyz"]
       (Toy.Machine "/work" shelf ["/work"] []
          ["command -v git"; "command -v definitely-not-a-real-tool-xyz"]))
  ∧ ∃ missing out,
      missing ∈ ["git"; "definitely-not-a-real-tool-xyz"]
      ∧ stdout
          (Toy.world []
             [MInitializing "gated"; MCheckingPrerequisites;
              MMissingPrerequisite "definitely-not-a-real-tool-xyz"]
             (Toy.Machine "/work" shelf ["/work"] []
                ["command -v git"; "command -v definitely-not-a-real-tool-xyz"]))
        = out ++ [MMissingPrerequisite missing].
Proof.
  apply (missing_prerequisite_aborts (H := Toy.toy) "gated" "gated" None gated
           [] ["git"; "definitely-not-a-real-tool-xyz"]
           (Toy.world0 [] shelf) (Toy.world0 [] shelf));
    reflexivity.
Defined.

(** A whole run: the second post-install command exits with status 1 and
    the third is run all the same. *)
Lemma success_means_every_step_succeeded_witness :
  ∃ (t : template) (variables : dict) (name : string)
    (w1 w2 w3 : World (H := Toy.toy)),
    load_json "complete" (os (Toy.world0 ["demo"] shelf)) = Document t
    ∧ collect_variables t (Toy.world0 ["demo"] shelf) = (Ret variables, w1)
    ∧ t_name t = Some name
    ∧ prerequisites_pass t (after w1 [MInitializing name] (os w1)) w2
    ∧ in_order variables (default (getcwd (os w1)) None) 1
        (get (t_steps t) []) (after w2 [MExecutingSteps] (os w2)) w3
    ∧ (Toy.world []
              [MConfiguring "complete"; MDescription EmptyString;
               MPrompt "Value for app: "; MInitializing "complete";
               MCheckingPrerequisites; MPrerequisitesSatisfied;
               MExecutingSteps; MStepHeader 1 None;
               MStep "Executing step"; MCreatedDirectory "/work/demo";
               MStepHeader 2 None; MStep "Executing step"; MRunningPostInstall;
               MPostInstallCommand "echo hi"; MPostInstallCommand "exit 1";
               MPostInstallCommand "true"; MSuggestedNextSteps;
               MNextStep "cd {{app}}"; MSuccess "complete"]
              (Toy.Machine "/work" shelf ["/work/demo"; "/work"] []
                 ["command -v git"; "true"; "echo hi"; "exit 1"; "true"]))
      = after w3 (closing_lines variables t ++ [MSuccess name])
          (after_post_install variables (get (t_postInstall t) []) (os w3)).
Proof.
  apply (success_means_every_step_succeeded (H := Toy.toy) "complete" None
           (Toy.world0 ["demo"] shelf)
           (Toy.world []
              [MConfiguring "complete"; MDescription EmptyString;
               MPrompt "Value for app: "; MInitializing "complete";
               MCheckingPrerequisites; MPrerequisitesSatisfied;
               MExecutingSteps; MStepHeader 1 None;
               MStep "Executing step"; MCreatedDirectory "/work/demo";
               MStepHeader 2 None; MStep "Executing step"; MRunningPostInstall;
               MPostInstallCommand "echo hi"; MPostInstallCommand "exit 1";
               MPostInstallCommand "true"; MSuggestedNextSteps;
               MNextStep "cd {{app}}"; MSuccess "complete"]
              (Toy.Machine "/work" shelf ["/work/demo"; "/work"] []
                 ["command -v git"; "true"; "echo hi"; "exit 1"; "true"]))).
  reflexivity.
Defined.

(** The template file is there and is not JSON. *)
Lemma execute_template_raises_only_witness :
  template_file_exists (Host := Toy.toy) "broken" (os (Toy.world0 [] shelf))
  = true
  ∧ load_json (Host := Toy.toy) "broken" (os (Toy.world0 [] shelf))
    = Malformed "Expecting value"
  ∧ Toy.world0 [] shelf = Toy.world0 [] shelf.
Proof.
  apply (execute_template_raises_only (H := Toy.toy) "broken" None
           (Toy.world0 [] shelf) (Toy.world0 [] shelf)
           (JSONDecodeError "Expecting value")).
  reflexivity.
Defined.

Lemma main_without_init_is_read_only_witness :
  os (main (H := Toy.toy) ["template-engine.py"; "info"; "complete"]
        (Toy.world0 ["y"] shelf)).2
  = os (Toy.world0 ["y"] shelf)
  ∧ stdin (main (H := Toy.toy) ["template-engine.py"; "info"; "complete"]
             (Toy.world0 ["y"] shelf)).2
    = stdin (Toy.world0 ["y"] shelf).
Proof.
  apply (main_without_init_is_read_only (H := Toy.toy)
           ["template-engine.py"; "info"; "complete"] (Toy.world0 ["y"] shelf)).
  discriminate.
Defined.

(** The shelf holds a document without a name: [list] fails on it. *)
Example list_fails_on_nameless :
  (exit_status (H := Toy.toy) ["template-engine.py"; "list"]
     (Toy.world0 [] shelf)).1 = 1.
Proof. reflexivity. Qed.

End RunnerMoreExamples.

(* ===================================================================== *)
(** ** More on the step executor *)
(* ===================================================================== *)

Module StepsMore.

Import Str Engine Notions MoreNotions MonadFacts Loop RunFacts.

Section Execute.

Context {H : Host}.



(** X15: a step without the key its type needs raises [KeyError] for that
    key, after the echo of the step and before anything is done to the
    machine: [command] for a command step, which a step without a type is
    too, and [path] for a directory or file step.  The step loop does not
    catch it: it leaves the loop with no failure line and no later step
    run. *)
Theorem step_without_its_key_raises
    (step : step) (variables : dict) (current_dir key : string) (w : World) :
  (get (s_type step) "command" = "command" ∧ s_command step = None
   ∧ key = "command")
  ∨ ((s_type step = Some "directory" ∨ s_type step = Some "file")
     ∧ s_path step = None ∧ key = "path") →
  execute_step step variables current_dir w
  = (Raise (KeyError key), after w [echo step] (os w))
  ∧ ∀ (i : nat) (rest : list Engine.step),
      for_until (enumerate i (step :: rest)) (step_body variables current_dir) w
      = (Raise (KeyError key),
         after w [MStepHeader i (s_description step); echo step] (os w)).
Proof.
  intros Hkey.
  assert (Hrun : ∀ w0, execute_step step variables current_dir w0
                       = (Raise (KeyError key), after w0 [echo step] (os w0))).
  { intros w0. unfold execute_step.
    destruct Hkey as [(Htype & Hcommand & ->) | ([Htype|Htype] & Hpath & ->)].
    - rewrite Htype. simpl. unfold run_command_step. by rewrite Hcommand.
    - rewrite Htype. simpl. unfold run_directory_step. by rewrite Hpath.
    - rewrite Htype. simpl. unfold run_file_step. by rewrite Hpath. }
  split; [apply Hrun |].
  intros i rest. cbn [enumerate].
  by rewrite for_until_cons, step_body_run, Hrun, after_after.
Qed.

End Execute.



(** A step with neither a type nor a command. *)
Lemma step_without_its_key_raises_witness :
  execute_step (H := Toy.toy) (Step None (Some "Build") None None None) []
    "/work" (Toy.world0 [] None)
  = (Raise (KeyError "command"),
     after (Toy.world0 [] None)
       [echo (Step None (Some "Build") None None None)] (Toy.machine0 None)).
Proof.
  apply (step_without_its_key_raises (H := Toy.toy)
           (Step None (Some "Build") None None None) [] "/work" "command"
           (Toy.world0 [] None)).
  left. repeat split.
Defined.

End StepsMore.

(* ===================================================================== *)
(** ** Saving a template *)
(* ===================================================================== *)

Module SavingFacts.

Import Engine Saving.

Section Save.

Context {H : Host} {D : Disk H}.

(** X16: [save_template] never raises.  It first creates the template
    directory; when that fails it prints the exception and returns [false]
    without writing.  Otherwise it writes the document to
    [<template_name>.json] in the template directory, and returns [true]
    exactly when the write does not fail. *)
Theorem save_template_result
    (template_name : string) (data : template) (w : SaveWorld) :
  (∀ detail h1,
     mkdir_parents templates_dir (machine w) = (Some detail, h1) →
     save_template template_name data w
     = (Ret false, MkSaveWorld (printed w ++ [MSaveError detail]) h1))
  ∧ (∀ h1 failure h2,
       mkdir_parents templates_dir (machine w) = (None, h1) →
       dump_json (joinpath templates_dir (template_name +:+ ".json")) data h1
       = (failure, h2) →
       save_template template_name data w
       = (Ret (bool_decide (failure = None)),
          MkSaveWorld
            (printed w ++
             [match failure with
              | None => MTemplateSaved
                          (joinpath templates_dir (template_name +:+ ".json"))
              | Some detail => MSaveError detail
              end]) h2)).
Proof.
  split.
  - intros detail h1 Hmkdir.
    unfold save_template, bind, save_call, save_print, ret.
    by rewrite Hmkdir.
  - intros h1 failure h2 Hmkdir Hdump.
    unfold save_template, bind, save_call, save_print, ret.
    rewrite Hmkdir. simpl. rewrite Hdump. by destruct failure.
Qed.

End Save.

Lemma save_template_result_witness :
  save_template (H := Toy.toy) (D := toy_disk) "web" (Toy.plain_template "web" [])
    (save_world (Toy.machine0 None))
  = (Ret (bool_decide ((None : option string) = None)),
     MkSaveWorld (H := Toy.toy)
       (printed (save_world (Toy.machine0 None)) ++
        [MTemplateSaved
           (joinpath (Host := Toy.toy) (templates_dir (Disk := toy_disk))
              ("web" +:+ ".json"))])
       (Toy.Machine "/work" None ["/home/mcf/templates"; "/work"]
          [("/home/mcf/templates/web.json", "web")] [] : @host Toy.toy)).
Proof.
  apply (proj2 (save_template_result (H := Toy.toy) (D := toy_disk) "web"
                  (Toy.plain_template "web" [])
                  (save_world (Toy.machine0 None)))
           (Toy.Machine "/work" None ["/home/mcf/templates"; "/work"] [] [])
           None);
    reflexivity.
Defined.

End SavingFacts.

(* ===================================================================== *)
(** ** More on the template store *)
(* ===================================================================== *)

Module StoreMore.

Import Engine Notions MoreNotions MoreSamples MonadFacts Store RunFacts.

Section Listing.

Context {H : Host}.

Lemma elem_of_parsable (stems : list string) (h : host) (t : template) :
  t ∈ parsable stems h →
  ∃ stem doc, stem ∈ stems ∧ load_json stem h = Document doc
              ∧ t = set_filename doc stem.
Proof.
  induction stems as [|stem rest IH]; simpl; intros Hin; [inversion Hin |].
  destruct (load_json stem h) as [doc|detail| |detail|detail] eqn:Hload.
  2-5: destruct (IH Hin) as (stem' & doc' & Hs & Hl & Ht);
       exists stem', doc'; split; [by right | done].
  apply elem_of_cons in Hin as [->|Hin].
  - exists stem, doc. split; [left | done].
  - destruct (IH Hin) as (stem' & doc' & Hs & Hl & Ht).
    exists stem', doc'. split; [by right | done].
Qed.

(** When the listing returns, it returns [listed]. *)
Lemma list_templates_Ret_inv (w w' : World) (l : list template) :
  list_templates w = (Ret l, w') → l = listed (os w).
Proof.
  intros Hrun. destruct (aborts (os w)) eqn:Haborts.
  - destruct (RunnerMore.list_templates_aborts w Haborts) as (e & w1 & Hlist).
    congruence.
  - rewrite (list_templates_clean w Haborts) in Hrun. by injection Hrun as <- _.
Qed.

(** X17: every template in a listing is the document of one of the files of
    the template directory, with the stem of that file recorded under
    [filename] (in place of any [filename] the document had) and nothing
    else changed: the listing invents no template and tells for each one
    where it comes from. *)
Theorem listed_templates_come_from_files
    (w w' : World) (l : list template) (t : template) :
  list_templates w = (Ret l, w') →
  t ∈ l →
  ∃ stem doc,
    stem ∈ glob_json (os w) ∧ load_json stem (os w) = Document doc
    ∧ t = set_filename doc stem ∧ t_filename t = Some stem.
Proof.
  intros Hrun Hin.
  apply list_templates_Ret_inv in Hrun as ->.
  unfold listed in Hin.
  destruct (templates_dir_exists (os w)); [| inversion Hin].
  rewrite (sorted_perm name_key) in Hin.
  apply elem_of_parsable in Hin as (stem & doc & Hstem & Hload & ->).
  by exists stem, doc.
Qed.

End Listing.

Lemma listed_templates_come_from_files_witness :
  ∃ stem doc,
    stem ∈ glob_json (Host := Toy.toy) (os (Toy.world0 [] shelf))
    ∧ load_json (Host := Toy.toy) stem (os (Toy.world0 [] shelf)) = Document doc
    ∧ set_filename gated "gated" = set_filename doc stem
    ∧ t_filename (set_filename gated "gated") = Some stem.
Proof.
  apply (listed_templates_come_from_files (H := Toy.toy) (Toy.world0 [] shelf)
           (snd (list_templates (Toy.world0 [] shelf)))
           (listed (H := Toy.toy) (Toy.machine0 shelf))
           (set_filename gated "gated")).
  - vm_compute. reflexivity.
  - vm_compute. right. right. left.
Defined.

End StoreMore.
